(** * govsphere: the code generator of [generate.go]

    A shallow embedding of the identifier and type utilities
    ([replaceReservedWords], [stripns], [toGoType], [comment]), of the
    namespace index ([objnsmap], [lookUpNamespace]) and of the generation
    driver ([generate], [genCode]), with the properties the specification
    states about them.

    Go strings are byte sequences: they are modelled by [string], whose
    characters are the 256 values of [ascii].  A Go [map[string]string] is
    a [gmap string string]; indexing it at an absent key yields the zero
    value, the empty string.  A run-time panic is [None].  The program
    runs over an explicit world (the global [objnsmap], the file system,
    the log and the exit status); [genCode] is a step function on it, and
    [generate] with its four goroutines is a relation that interleaves the
    steps. *)

From Stdlib Require Import ZArith Ascii String Lia Bool.
From stdpp Require Import base tactics option list gmap strings.

(** ** Go primitives

    The parts of the Go language and of its standard library that
    [generate.go] relies on: map indexing, string slicing, [strings.Split],
    [strings.HasSuffix], [strings.TrimLeftFunc], the UTF-8 decoding behind
    [range] over a string, and [unicode.IsSpace]. *)

Module Go.

(** [m[k]] for a [map[string]string]: the empty string when [k] is absent. *)
Definition index (m : gmap string string) (k : string) : string :=
  default "" (m !! k).

(** [_, ok := m[k]]. *)
Definition has (m : gmap string string) (k : string) : bool :=
  bool_decide (is_Some (m !! k)).

(** [len(s)]. *)
Definition len (s : string) : nat := String.length s.

(** The first [n] bytes of [s], and [s] without them. *)
Fixpoint take (n : nat) (s : string) : string :=
  match n, s with
  | S n', String c s' => String c (take n' s')
  | _, _ => EmptyString
  end.

Fixpoint drop (n : nat) (s : string) : string :=
  match n, s with
  | S n', String _ s' => drop n' s'
  | _, _ => s
  end.

(** [s[lo:hi]]; [None] is the run-time panic "slice bounds out of range". *)
Definition slice (s : string) (lo hi : nat) : option string :=
  if bool_decide (lo ≤ hi ≤ len s) then Some (take (hi - lo) (drop lo s))
  else None.

(** [s[lo:]]. *)
Definition slice_from (s : string) (lo : nat) : option string :=
  slice s lo (len s).

(** [strings.HasSuffix(s, suffix)]. *)
Definition HasSuffix (s suffix : string) : bool :=
  bool_decide (len suffix ≤ len s) &&
  bool_decide (drop (len s - len suffix) s = suffix).

(** [strings.HasPrefix(s, prefix)]. *)
Definition HasPrefix (s prefix : string) : bool :=
  bool_decide (len prefix ≤ len s) &&
  bool_decide (take (len prefix) s = prefix).

(** [strings.Count(s, sep)] for a separator of one byte. *)
Fixpoint Count (s : string) (sep : ascii) : nat :=
  match s with
  | EmptyString => 0
  | String c s' => (if bool_decide (c = sep) then 1 else 0) + Count s' sep
  end.

(** [strings.Split(s, sep)] for a separator of one byte: the pieces of [s]
    between the occurrences of [sep], in order; one more piece than there
    are separators. *)
Fixpoint Split (s : string) (sep : ascii) : list string :=
  match s with
  | EmptyString => [EmptyString]
  | String c s' =>
      if bool_decide (c = sep) then EmptyString :: Split s' sep
      else match Split s' sep with
           | [] => [String c EmptyString]
           | piece :: pieces => String c piece :: pieces
           end
  end.

(** [s[i]] as a number; only used below the length of [s]. *)
Definition byte_at (s : string) (i : nat) : Z :=
  match String.get i s with
  | Some c => Z.of_N (N_of_ascii c)
  | None => 0%Z
  end.

(** *** Package [unicode/utf8] *)

Definition RuneError : Z := 0xFFFD%Z.

(** The table [first]: what the first byte of a sequence says about it.
    [0xF0]: one ASCII byte; [0xF1]: invalid; otherwise the low three bits
    are the size and the high four bits index [acceptRanges]. *)
Definition first (b : Z) : Z :=
  if (b <? 0x80)%Z then 0xF0%Z
  else if (b <? 0xC2)%Z then 0xF1%Z
  else if (b <? 0xE0)%Z then 0x02%Z
  else if (b =? 0xE0)%Z then 0x13%Z
  else if (b <? 0xED)%Z then 0x03%Z
  else if (b =? 0xED)%Z then 0x23%Z
  else if (b <? 0xF0)%Z then 0x03%Z
  else if (b =? 0xF0)%Z then 0x34%Z
  else if (b <? 0xF4)%Z then 0x04%Z
  else if (b =? 0xF4)%Z then 0x44%Z
  else 0xF1%Z.

(** The table [acceptRanges]: the range allowed for the second byte. *)
Definition acceptRanges (i : Z) : Z * Z :=
  if (i =? 1)%Z then (0xA0, 0xBF)%Z
  else if (i =? 2)%Z then (0x80, 0x9F)%Z
  else if (i =? 3)%Z then (0x90, 0xBF)%Z
  else if (i =? 4)%Z then (0x80, 0x8F)%Z
  else (0x80, 0xBF)%Z.

(** The body of [utf8.DecodeRuneInString] on a string of [n] bytes that
    begins with [s0], [s1], [s2], [s3].  The test of the length comes
    before [s1] is read, so a byte past the end is never looked at. *)
Definition decodeRune (n : nat) (s0 s1 s2 s3 : Z) : Z * nat :=
  if bool_decide (n < 1) then (RuneError, 0%nat)
  else
    let x := first s0 in
    if (0xF0 <=? x)%Z then ((if (x =? 0xF1)%Z then RuneError else s0), 1%nat)
    else
      let sz := Z.land x 7%Z in
      let accept := acceptRanges (Z.shiftr x 4%Z) in
      if (Z.of_nat n <? sz)%Z then (RuneError, 1%nat)
      else if (s1 <? accept.1)%Z || (accept.2 <? s1)%Z then (RuneError, 1%nat)
      else if (sz <=? 2)%Z then
        (Z.lor (Z.shiftl (Z.land s0 0x1F) 6) (Z.land s1 0x3F), 2%nat)%Z
      else if (s2 <? 0x80)%Z || (0xBF <? s2)%Z then (RuneError, 1%nat)
      else if (sz <=? 3)%Z then
        (Z.lor (Z.lor (Z.shiftl (Z.land s0 0x0F) 12)
                      (Z.shiftl (Z.land s1 0x3F) 6))
               (Z.land s2 0x3F), 3%nat)%Z
      else if (s3 <? 0x80)%Z || (0xBF <? s3)%Z then (RuneError, 1%nat)
      else
        (Z.lor (Z.lor (Z.lor (Z.shiftl (Z.land s0 0x07) 18)
                             (Z.shiftl (Z.land s1 0x3F) 12))
                      (Z.shiftl (Z.land s2 0x3F) 6))
               (Z.land s3 0x3F), 4%nat)%Z.

(** [utf8.DecodeRuneInString(s)]: the first rune of [s] and its width in
    bytes; [(RuneError, 1)] for an invalid or truncated encoding and
    [(RuneError, 0)] for the empty string. *)
Definition DecodeRuneInString (s : string) : Z * nat :=
  decodeRune (len s) (byte_at s 0) (byte_at s 1) (byte_at s 2) (byte_at s 3).

(** [for i, r := range s]: the byte index and the rune of every iteration.
    Each iteration consumes at least one byte, so [len s] iterations are
    enough. *)
Fixpoint range_from (fuel i : nat) (s : string) : list (nat * Z) :=
  match fuel with
  | O => []
  | S fuel' =>
      match s with
      | EmptyString => []
      | String _ _ =>
          let '(r, size) := DecodeRuneInString s in
          (i, r) :: range_from fuel' (i + size) (drop size s)
      end
  end.

Definition range_string (s : string) : list (nat * Z) :=
  range_from (len s) 0 s.

(** *** Package [unicode] *)

(** [unicode.IsSpace(r)]: the Latin-1 spaces, and beyond Latin-1 the
    [White_Space] property (as of Unicode 6.3). *)
Definition IsSpace (r : Z) : bool :=
  if (r <=? 0xFF)%Z then
    bool_decide (r ∈ [0x09; 0x0A; 0x0B; 0x0C; 0x0D; 0x20; 0x85; 0xA0]%Z)
  else
    (r =? 0x1680)%Z || ((0x2000 <=? r)%Z && (r <=? 0x200A)%Z)
    || ((0x2028 <=? r)%Z && (r <=? 0x2029)%Z)
    || (r =? 0x202F)%Z || (r =? 0x205F)%Z || (r =? 0x3000)%Z.

(** *** Package [strings], continued *)

(** [indexFunc(s, f, truth)]: the index of the first rune [r] of [s] with
    [f(r) == truth]. *)
Definition indexFunc (s : string) (f : Z → bool) (truth : bool) : option nat :=
  fst <$> List.find (λ ir, Bool.eqb (f ir.2) truth) (range_string s).

(** [strings.TrimLeftFunc(s, f)]. *)
Definition TrimLeftFunc (s : string) (f : Z → bool) : string :=
  match indexFunc s f false with
  | None => ""
  | Some i => drop i s
  end.

End Go.

(** The line feed, the tabulation and the double quote. *)
Definition LF : ascii := "010"%char.
Definition TAB : ascii := "009"%char.
Definition DQ : ascii := "034"%char.

(** ** Identifier and type utilities *)



Definition reservedWords_entries : list (string * string) :=
  [ ("break", "break_"); ("default", "default_"); ("func", "func_");
    ("interface", "interface_"); ("select", "select_"); ("case", "case_");
    ("defer", "defer_"); ("go", "go_"); ("map", "map_");
    ("struct", "struct_"); ("chan", "chan_"); ("else", "else_");
    ("goto", "goto_"); ("package", "package_"); ("switch", "switch_");
    ("const", "const_"); ("fallthrough", "fallthrough_"); ("if", "if_");
    ("range", "range_"); ("type", "type_"); ("continue", "continue_");
    ("for", "for_"); ("import", "import_"); ("return", "return_");
    ("var", "var_") ].

Definition reservedWords : gmap string string :=
  list_to_map reservedWords_entries.

Definition replaceReservedWords (identifier : string) : string :=
  let value := Go.index reservedWords identifier in
  if bool_decide (value ≠ "") then value else identifier.

Definition xsd2GoTypes_entries : list (string * string) :=
  [ ("string", "string"); ("token", "string"); ("float", "float32");
    ("double", "float64"); ("decimal", "float64"); ("integer", "int32");
    ("int", "int32"); ("short", "int16"); ("byte", "int8");
    ("long", "int64"); ("boolean", "bool"); ("dateTime", "time.Time");
    ("date", "time.Time"); ("time", "time.Time");
    ("base64Binary", "[]byte"); ("hexBinary", "[]byte");
    ("unsignedInt", "uint32"); ("unsignedShort", "uint16");
    ("unsignedByte", "byte"); ("unsignedLong", "uint64");
    ("anyType", "interface{}") ].

Definition xsd2GoTypes : gmap string string :=
  list_to_map xsd2GoTypes_entries.

Global Arguments Go.DecodeRuneInString : simpl never.
Global Arguments reservedWords : simpl never.
Global Arguments xsd2GoTypes : simpl never.

(** The local name of a type token: [r[0]], or [r[1]] when the token splits
    in exactly two pieces at [":"].  [strings.Split] never returns an empty
    slice, so [r[0]] is in range. *)
Definition stripns (xsdType : string) : string :=
  let r := Go.Split xsdType ":" in
  let type_ := default "" (r !! 0) in
  if bool_decide (length r = 2) then default "" (r !! 1) else type_.

(** [type_[:len(type_)-2]] below is in range: it is only reached when
    [type_] ends in ["[]"]. *)
Definition toGoType (xsdType : string) : string :=
  if bool_decide (xsdType = "") then ""
  else
    let r := Go.Split xsdType ":" in
    let type_ := default "" (r !! 0) in
    let type_ := if bool_decide (length r = 2) then default "" (r !! 1)
                 else type_ in
    let value := Go.index xsd2GoTypes type_ in
    if bool_decide (value ≠ "") then value
    else if Go.HasSuffix type_ "[]" then
      let type_ := Go.take (Go.len type_ - 2) type_ in
      if Go.has xsd2GoTypes type_ then "[]" +:+ type_
      else "[]*" +:+ type_
    else "*" +:+ type_.

(** One iteration of the loop of [comment]: the state is the pair of
    [output] and [hasComment]. *)
Definition comment_line (acc : string * bool) (line : string) : string * bool :=
  let '(output, hasComment) := acc in
  let line := Go.TrimLeftFunc line Go.IsSpace in
  let hasComment := if bool_decide (line ≠ "") then true else hasComment in
  (output +:+ String LF "// " +:+ line, hasComment).

Definition comment (text : string) : string :=
  let lines := Go.Split text LF in
  if bool_decide (length lines = 1) && bool_decide (lines !! 0 = Some "")
  then ""
  else
    let '(output, hasComment) := foldl comment_line ("", false) lines in
    if hasComment then output else "".

(** What [comment] returns for [lines] when one of them holds a comment:
    every line, trimmed, behind a line feed and the comment marker. *)
Definition comment_body (lines : list string) : string :=
  foldr (λ line rest,
           String LF "// " +:+ Go.TrimLeftFunc line Go.IsSpace +:+ rest)
        "" lines.

(** The text holds white space only: every rune of it is a space for
    [unicode.IsSpace].  The empty text is such a text. *)
Definition whitespace_only (text : string) : bool :=
  forallb Go.IsSpace (map snd (Go.range_string text)).

(** *** [makePublic]

    [makePublic] converts its argument to a slice of runes, changes the
    case of the first rune and converts the slice back to a string. *)

(** [unicode.ToUpper(r)] and [unicode.ToLower(r)]: an ASCII rune is
    converted on the spot; any other goes through the case tables of the
    package, [unicode.To(_case, r)], which is the argument [To] here
    ([unicode.UpperCase] is 0 and [unicode.LowerCase] is 1). *)
Definition ToUpper (To : Z → Z → Z) (r : Z) : Z :=
  if (r <=? 0x7F)%Z then
    (if (0x61 <=? r)%Z && (r <=? 0x7A)%Z then r - 0x20 else r)%Z
  else To 0%Z r.

Definition ToLower (To : Z → Z → Z) (r : Z) : Z :=
  if (r <=? 0x7F)%Z then
    (if (0x41 <=? r)%Z && (r <=? 0x5A)%Z then r + 0x20 else r)%Z
  else To 1%Z r.

(** The UTF-8 encoding of a rune, as [utf8.AppendRune] writes it: a rune
    out of range or a surrogate half is written as [utf8.RuneError]. *)
Definition encodeRune (r : Z) : list Z :=
  if (0 <=? r)%Z && (r <=? 0x7F)%Z then [r]
  else if (0 <=? r)%Z && (r <=? 0x7FF)%Z then
    [Z.lor 0xC0 (Z.shiftr r 6); Z.lor 0x80 (Z.land r 0x3F)]%Z
  else if (r <? 0)%Z || (0x10FFFF <? r)%Z
          || ((0xD800 <=? r)%Z && (r <=? 0xDFFF)%Z) then
    [0xEF; 0xBF; 0xBD]%Z
  else if (r <=? 0xFFFF)%Z then
    [Z.lor 0xE0 (Z.shiftr r 12); Z.lor 0x80 (Z.land (Z.shiftr r 6) 0x3F);
     Z.lor 0x80 (Z.land r 0x3F)]%Z
  else
    [Z.lor 0xF0 (Z.shiftr r 18); Z.lor 0x80 (Z.land (Z.shiftr r 12) 0x3F);
     Z.lor 0x80 (Z.land (Z.shiftr r 6) 0x3F); Z.lor 0x80 (Z.land r 0x3F)]%Z.

(** [[]rune(s)] and [string(runes)]. *)
Definition runes_of_string (s : string) : list Z := (Go.range_string s).*2.

Definition string_of_runes (runes : list Z) : string :=
  string_of_list_ascii
    (map (λ b, ascii_of_N (Z.to_N b)) (concat (map encodeRune runes))).

Definition makePublic (To : Z → Z → Z) (field_ : string) (public : bool) : string :=
  let field := runes_of_string field_ in
  if bool_decide (length field = 0) then field_
  else
    let field :=
      if public then <[0 := ToUpper To (default 0%Z (field !! 0))]> field
      else <[0 := ToLower To (default 0%Z (field !! 0))]> field in
    string_of_runes field.

(** Every byte of the string is an ASCII character. *)
Fixpoint is_ASCII (s : string) : bool :=
  match s with
  | EmptyString => true
  | String c s' => (Z.of_N (N_of_ascii c) <? 0x80)%Z && is_ASCII s'
  end.

(** ** Namespace index *)

(** [lookUpNamespace] reads the global [objnsmap]; here the map is its
    first argument.  [None] is a run-time panic of a slice expression. *)
Definition lookUpNamespace (objnsmap : gmap string string)
    (type_ currentNs : string) : option string :=
  if bool_decide (type_ = "") then Some type_
  else
    h1 ← Go.slice type_ 0 1;
    '(prefix, type_) ←
      (if bool_decide (h1 = "*") then
         t ← Go.slice_from type_ 1; Some ("*", t)
       else
         h3 ← Go.slice type_ 0 3;
         if bool_decide (h3 = "[]*") then
           t ← Go.slice_from type_ 3; Some ("[]*", t)
         else
           h2 ← Go.slice type_ 0 2;
           if bool_decide (h2 = "[]") then
             t ← Go.slice_from type_ 2; Some ("[]", t)
           else Some ("", type_));
    let targetNs := Go.index objnsmap type_ in
    if bool_decide (targetNs = "") || bool_decide (targetNs = currentNs)
    then Some (prefix +:+ type_)
    else Some (prefix +:+ targetNs +:+ "." +:+ type_).

(** What resolving the bare [name] under the decoration [deco] is to give:
    the decorated name, qualified with the owning namespace when the index
    holds one that is neither empty nor the current namespace. *)
Definition resolved (objnsmap : gmap string string) (deco name currentNs : string)
  : string :=
  match objnsmap !! name with
  | None => deco +:+ name
  | Some owner =>
      if bool_decide (owner = "" ∨ owner = currentNs) then deco +:+ name
      else deco +:+ owner +:+ "." +:+ name
  end.

(** ** Schema model *)

(** Modelled from the spec: the declaration of [Object] (with its fields and
    methods) is not in [generate.go], which only reads [Name] and
    [Namespace]; the records follow the data model of the specification. *)
Record Field := mkField {
  field_Name : string;
  field_Type : string;
  field_documentation : string }.

Record Method := mkMethod {
  method_Name : string;
  method_Parameters : list (string * string);
  method_ReturnType : string }.

Record Object := mkObject {
  Name : string;
  Namespace : string;
  Extends : string;
  Fields : list Field;
  Methods : list Method }.

(** The build pass of [generate]: [objnsmap[obj.Name] = obj.Namespace] for
    every object, in schema order, starting from the empty map. *)
Definition buildIndex (objects : list Object) : gmap string string :=
  foldl (λ objnsmap obj, <[Name obj := Namespace obj]> objnsmap) ∅ objects.

(** ** The world outside the program *)

Record FileSystem := mkFS {
  dirs : gset string;
  files : gmap string string }.

(** Paths are compared as they are written.  What precedes the last slash
    of a path, when it has one: *)
Fixpoint dirname (path : string) : option string :=
  match path with
  | EmptyString => None
  | String c rest =>
      match dirname rest with
      | Some dir => Some (String c dir)
      | None => if bool_decide (c = "/"%char) then Some "" else None
      end
  end.

(** The directory a path names an entry of: the working directory for a
    path without slash, the root for a path whose only slash is in
    front. *)
Definition parent (path : string) : string :=
  match dirname path with
  | None => "."
  | Some "" => "/"
  | Some dir => dir
  end.

(** The working directory and the root are always there. *)
Definition is_dir (f : FileSystem) (path : string) : bool :=
  bool_decide (path = ".") || bool_decide (path = "/")
  || bool_decide (path ∈ dirs f).

(** A directory or a file is at [path]. *)
Definition taken (f : FileSystem) (path : string) : bool :=
  is_dir f path || bool_decide (is_Some (files f !! path)).

(** What rendering one object gives: [template.Must] panics when the
    template does not parse, [Execute] returns an error, or the rendered
    text is appended to the buffer. *)
Inductive Rendered :=
| RenderOk (text : string)
| RenderPanic (msg : string)
| RenderError (err : string).

(** The constants and functions [generate.go] uses and does not define: the
    templates (declared in another file of the package), the helper
    [exists], and the standard library's [ioutil.ReadFile],
    [json.Unmarshal], [os.Create], [text/template] and [format.Source].  A
    template is executed with [funcMap], whose [lookUpNamespace] reads
    [objnsmap]: the map is an argument of [template_Execute].
    [os_Mkdir_error] is the error [os.Mkdir] returns for a reason the file
    system of the model does not show (permissions, a full disk). *)
Record Externals := mkExternals {
  headerTmpl : string;
  moTmpl : string;
  doTmpl : string;
  enumTmpl : string;
  faultTmpl : string;
  exists_ : FileSystem → string → bool * option string;
  ioutil_ReadFile : string → string + string;
  json_Unmarshal : string → list Object + string;
  os_Create : FileSystem → string → option string;
  os_Mkdir_error : FileSystem → string → option string;
  template_Execute : string → gmap string string → Object → Rendered;
  format_Source : string → string + string }.

(** The state the goroutines share: the global [objnsmap], the file system,
    what was logged, and the exit code once the process has exited. *)
Record World := mkWorld {
  objnsmap : gmap string string;
  fs : FileSystem;
  log : list string;
  exited : option Z }.

Definition set_objnsmap (m : gmap string string) (w : World) : World :=
  mkWorld m (fs w) (log w) (exited w).

Definition set_fs (f : FileSystem) (w : World) : World :=
  mkWorld (objnsmap w) f (log w) (exited w).

(** [os.Mkdir(path, 0744)], its error dropped as the callers drop it.  The
    directory is made when its parent is a directory, nothing is at [path]
    and the system has no other objection; a call that fails changes
    nothing. *)
Definition os_Mkdir (E : Externals) (path : string) (w : World) : World :=
  let made :=
    is_dir (fs w) (parent path) && negb (taken (fs w) path)
    && bool_decide (os_Mkdir_error E (fs w) path = None) in
  set_fs (mkFS (if made then {[path]} ∪ dirs (fs w) else dirs (fs w))
            (files (fs w))) w.

(** The effect of a successful [os.Create(file)]: the file exists and is
    empty. *)
Definition create_file (file : string) (w : World) : World :=
  set_fs (mkFS (dirs (fs w)) (<[file := ""]> (files (fs w)))) w.

(** [fd.Write(b)] on the descriptor [os.Create(file)] returned, at its
    initial offset. *)
Definition fd_Write (file b : string) (w : World) : World :=
  set_fs (mkFS (dirs (fs w)) (<[file := b]> (files (fs w)))) w.

(** [log.Fatalln] and [log.Fatalf]: the message is logged and the process
    exits with status 1. *)
Definition log_Fatal (msg : string) (w : World) : World :=
  mkWorld (objnsmap w) (fs w) (log w ++ [msg]) (Some 1%Z).

(** A panic that nothing recovers: the process exits with status 2. *)
Definition go_panic (msg : string) (w : World) : World :=
  mkWorld (objnsmap w) (fs w) (log w ++ ["panic: " +:+ msg]) (Some 2%Z).

(** [if ok, err := exists(pkg); !ok && err == nil { os.Mkdir(pkg, 0744) }]. *)
Definition ensure_dir (E : Externals) (pkg : string) (w : World) : World :=
  let '(ok, err) := exists_ E (fs w) pkg in
  if negb ok && bool_decide (err = None) then os_Mkdir E pkg w else w.

(** The system refuses no directory where the parent is a directory and
    nothing is in the way, and no file where the parent is a directory and
    the path is none. *)
Definition writable (E : Externals) : Prop :=
  (∀ f path, is_dir f (parent path) = true → taken f path = false →
             os_Mkdir_error E f path = None) ∧
  (∀ f path, is_dir f (parent path) = true → is_dir f path = false →
             os_Create E f path = None).

(** ** [genCode] *)

Definition tabs (n : nat) : string := String.concat "" (replicate n (String TAB "")).

Definition quoted (s : string) : string := String DQ s +:+ String DQ "".

Definition import_do : string :=
  String LF (tabs 3) +:+ "import (" +:+
  String LF (tabs 4) +:+ "//" +:+ quoted "github.com/c4milo/govsphere/vim/mo" +:+
  String LF (tabs 4) +:+ quoted "time" +:+
  String LF (tabs 3) +:+ ")" +:+
  String LF (tabs 2).

Definition import_mo : string :=
  String LF (tabs 3) +:+ "import (" +:+
  String LF (tabs 4) +:+ quoted "github.com/c4milo/govsphere/vim/do" +:+
  String LF (tabs 4) +:+ quoted "time" +:+
  String LF (tabs 3) +:+ ")" +:+
  String LF (tabs 2).

Definition import_fault : string :=
  String LF (tabs 3) +:+ "import (" +:+
  String LF (tabs 4) +:+ quoted "github.com/c4milo/govsphere/vim/do" +:+
  String LF (tabs 3) +:+ ")" +:+
  String LF (tabs 2).

(** What [genCode] writes to the buffer before the loop. *)
Definition boilerplate (E : Externals) (namespace : string) : string :=
  headerTmpl E +:+ ("package " +:+ namespace +:+ String LF "") +:+
  (if bool_decide (namespace = "do") then import_do
   else if bool_decide (namespace = "mo") then import_mo
   else if bool_decide (namespace = "fault") then import_fault
   else "").

(** Where a call of [genCode] stands. *)
Inductive Pc :=
| AtMkdir
| AtCreate
| AtHeader
| AtRange (rest : list Object)
| AtFormat
| AtReturn.

(** A call of [genCode]: its arguments, its position and its buffer. *)
Record Frame := mkFrame {
  objects : list Object;
  mainPkg : string;
  tmpl : string;
  namespace : string;
  pc : Pc;
  data : string }.

Definition goto (p : Pc) (f : Frame) : Frame :=
  mkFrame (objects f) (mainPkg f) (tmpl f) (namespace f) p (data f).

Definition goto_with (p : Pc) (d : string) (f : Frame) : Frame :=
  mkFrame (objects f) (mainPkg f) (tmpl f) (namespace f) p d.

Definition pkg_of (f : Frame) : string := mainPkg f +:+ "/" +:+ namespace f.

Definition file_of (f : Frame) : string :=
  pkg_of f +:+ "/" +:+ namespace f +:+ ".go".

Definition format_error (file err : string) : string :=
  "There are errors in the generated source for " +:+ file +:+ ": " +:+ err
  +:+ String LF "".

(** One step of [genCode]. *)
Definition genCode_step (E : Externals) (f : Frame) (w : World) : Frame * World :=
  match pc f with
  | AtMkdir => (goto AtCreate f, ensure_dir E (pkg_of f) w)
  | AtCreate =>
      match os_Create E (fs w) (file_of f) with
      | Some err => (f, log_Fatal (err +:+ String LF "") w)
      | None => (goto AtHeader f, create_file (file_of f) w)
      end
  | AtHeader =>
      (goto_with (AtRange (objects f)) (boilerplate E (namespace f)) f, w)
  | AtRange [] => (goto AtFormat f, w)
  | AtRange (obj :: rest) =>
      if bool_decide (Namespace obj ≠ namespace f) then (goto (AtRange rest) f, w)
      else
        match template_Execute E (tmpl f) (objnsmap w) obj with
        | RenderOk text => (goto_with (AtRange rest) (data f +:+ text) f, w)
        | RenderPanic msg => (f, go_panic msg w)
        | RenderError err => (f, log_Fatal (err +:+ String LF "") w)
        end
  | AtFormat =>
      let source := data f in
      match format_Source E source with
      | inr err =>
          (f, log_Fatal (format_error (file_of f) err)
                (fd_Write (file_of f) source w))
      | inl fsource => (goto AtReturn f, fd_Write (file_of f) fsource w)
      end
  | AtReturn => (f, w)
  end.

Definition finished (f : Frame) : bool :=
  match pc f with AtReturn => true | _ => false end.

Fixpoint genCode_run (E : Externals) (fuel : nat) (f : Frame) (w : World)
  : Frame * World :=
  match fuel with
  | O => (f, w)
  | S fuel' =>
      if finished f || bool_decide (exited w ≠ None) then (f, w)
      else let '(f', w') := genCode_step E f w in genCode_run E fuel' f' w'
  end.

Definition call_genCode (objects : list Object) (mainPkg tmpl namespace : string)
  : Frame :=
  mkFrame objects mainPkg tmpl namespace AtMkdir "".

(** [genCode(objects, mainPkg, tmpl, namespace)] run alone: the frame it
    ends in and the world it leaves.  Five steps and one per object are
    enough. *)
Definition genCode (E : Externals) (objects : list Object)
    (mainPkg tmpl namespace : string) (w : World) : Frame * World :=
  genCode_run E (length objects + 5)
    (call_genCode objects mainPkg tmpl namespace) w.

(** *** [genCode] in one piece *)

Inductive Loop :=
| LoopDone (data : string)
| LoopPanic (msg : string)
| LoopError (err : string).

(** The loop of [genCode] over [objects], from the buffer [data]. *)
Fixpoint render (E : Externals) (tmpl : string) (objnsmap : gmap string string)
    (namespace : string) (objects : list Object) (data : string) : Loop :=
  match objects with
  | [] => LoopDone data
  | obj :: rest =>
      if bool_decide (Namespace obj ≠ namespace)
      then render E tmpl objnsmap namespace rest data
      else match template_Execute E tmpl objnsmap obj with
           | RenderOk text =>
               render E tmpl objnsmap namespace rest (data +:+ text)
           | RenderPanic msg => LoopPanic msg
           | RenderError err => LoopError err
           end
  end.

(** The world [genCode] leaves, written as the source reads. *)
Definition genCode_world (E : Externals) (objects : list Object)
    (mainPkg tmpl namespace : string) (w : World) : World :=
  let pkg := mainPkg +:+ "/" +:+ namespace in
  let w := ensure_dir E pkg w in
  let file := pkg +:+ "/" +:+ namespace +:+ ".go" in
  match os_Create E (fs w) file with
  | Some err => log_Fatal (err +:+ String LF "") w
  | None =>
      let w := create_file file w in
      match render E tmpl (objnsmap w) namespace objects
              (boilerplate E namespace) with
      | LoopPanic msg => go_panic msg w
      | LoopError err => log_Fatal (err +:+ String LF "") w
      | LoopDone source =>
          match format_Source E source with
          | inr err => log_Fatal (format_error file err) (fd_Write file source w)
          | inl fsource => fd_Write file fsource w
          end
      end
  end.

(** ** Source files that declare nothing

    [format.Source] parses what it is given as a Go source file and prints
    it again.  The files recognised here are the ones made of white space,
    comments, a package clause and import declarations, scanned and parsed
    as the language specification has it. *)

Inductive Token :=
| PACKAGE
| IMPORT
| IDENT (name : string)
| STRING (value : string)
| LPAREN
| RPAREN
| SEMICOLON.

(** The keywords of the language. *)
Definition keywords : list string :=
  [ "break"; "default"; "func"; "interface"; "select"; "case"; "defer"; "go";
    "map"; "struct"; "chan"; "else"; "goto"; "package"; "switch"; "const";
    "fallthrough"; "if"; "range"; "type"; "continue"; "for"; "import";
    "return"; "var" ].

(** Where the scanner stands: between tokens, behind a slash, in a comment,
    in a word or in a string.  [insertSemi] says that a line end here stands
    for a semicolon; [directive] counts the bytes of ["line "] a comment
    has begun with. *)
Inductive Scan :=
| Code (insertSemi : bool)
| Slash (insertSemi : bool)
| LineComment (directive : nat)
| GeneralComment (insertSemi star : bool) (directive : nat)
| Word (name : string)
| Quoted (value : string).

Definition is_letter (c : ascii) : bool :=
  let n := N_of_ascii c in
  ((97 <=? n) && (n <=? 122) || (65 <=? n) && (n <=? 90))%N.

Definition is_digit (c : ascii) : bool :=
  let n := N_of_ascii c in ((48 <=? n) && (n <=? 57))%N.

(** The bytes taken in an import path: letters, digits, and [.], [/], [-]
    and [_]. *)
Definition is_path_byte (c : ascii) : bool :=
  is_letter c || is_digit c
  || bool_decide (c ∈ ["."; "/"; "-"; "_"]%char).

(** The bytes taken in a comment: ASCII, and not NUL. *)
Definition is_comment_byte (c : ascii) : bool :=
  let n := N_of_ascii c in ((1 <=? n) && (n <=? 127))%N.

(** A comment that begins with ["line "] may be a line directive, which the
    scanner reads and may refuse: such a comment is not taken. *)
Definition line_directive : list ascii := ["l"; "i"; "n"; "e"; " "]%char.

Definition directive_next (directive : nat) (c : ascii) : option nat :=
  if bool_decide (line_directive !! directive = Some c) then
    if bool_decide (S directive = length line_directive) then None
    else Some (S directive)
  else Some (length line_directive).

(** The token of a word, and whether a line end behind it stands for a
    semicolon.  Of the keywords only [package] and [import] are taken. *)
Definition word (name : string) : option (list Token * bool) :=
  if bool_decide (name = "package") then Some ([PACKAGE], false)
  else if bool_decide (name = "import") then Some ([IMPORT], false)
  else if bool_decide (name ∈ keywords) then None
  else Some ([IDENT name], true).

(** One byte between tokens. *)
Definition scan_code (insertSemi : bool) (c : ascii)
  : option (list Token * Scan) :=
  if bool_decide (c = LF) then
    Some (if insertSemi then [SEMICOLON] else [], Code false)
  else if bool_decide (c ∈ [" "%char; TAB; "013"%char]) then
    Some ([], Code insertSemi)
  else if bool_decide (c = "/"%char) then Some ([], Slash insertSemi)
  else if bool_decide (c = "("%char) then Some ([LPAREN], Code false)
  else if bool_decide (c = ")"%char) then Some ([RPAREN], Code true)
  else if bool_decide (c = ";"%char) then Some ([SEMICOLON], Code false)
  else if bool_decide (c = DQ) then Some ([], Quoted "")
  else if is_letter c then Some ([], Word (String c ""))
  else None.

(** One byte of the source: the tokens it completes and where the scanner
    stands behind it, or [None] for a source that is not taken.  A line
    comment stands for a line end, and so does a general comment that
    holds one. *)
Definition scan_byte (m : Scan) (c : ascii) : option (list Token * Scan) :=
  match m with
  | Code insertSemi => scan_code insertSemi c
  | Slash insertSemi =>
      if bool_decide (c = "/"%char) then
        Some (if insertSemi then [SEMICOLON] else [], LineComment 0)
      else if bool_decide (c = "*"%char) then
        Some ([], GeneralComment insertSemi false 0)
      else None
  | LineComment directive =>
      if bool_decide (c = LF) then Some ([], Code false)
      else if is_comment_byte c then
        directive ← directive_next directive c;
        Some ([], LineComment directive)
      else None
  | GeneralComment insertSemi star directive =>
      if star && bool_decide (c = "/"%char) then Some ([], Code insertSemi)
      else if is_comment_byte c then
        directive ← directive_next directive c;
        Some (if insertSemi && bool_decide (c = LF) then [SEMICOLON] else [],
              GeneralComment (insertSemi && negb (bool_decide (c = LF)))
                (bool_decide (c = "*"%char)) directive)
      else None
  | Word name =>
      if is_letter c || is_digit c then Some ([], Word (name +:+ String c ""))
      else
        '(tokens, insertSemi) ← word name;
        '(more, m) ← scan_code insertSemi c;
        Some (tokens ++ more, m)
  | Quoted value =>
      if bool_decide (c = DQ) then
        if bool_decide (value = "") then None
        else Some ([STRING value], Code true)
      else if is_path_byte c then Some ([], Quoted (value +:+ String c ""))
      else None
  end.

Fixpoint scan (m : Scan) (src : string) : option (list Token * Scan) :=
  match src with
  | EmptyString => Some ([], m)
  | String c rest =>
      '(tokens, m) ← scan_byte m c;
      '(more, m) ← scan m rest;
      Some (tokens ++ more, m)
  end.

(** The end of the source: a comment or a string left open is an error. *)
Definition scan_end (m : Scan) : option (list Token) :=
  match m with
  | Code insertSemi => Some (if insertSemi then [SEMICOLON] else [])
  | LineComment _ => Some []
  | Word name =>
      '(tokens, insertSemi) ← word name;
      Some (tokens ++ if insertSemi : bool then [SEMICOLON] else [])
  | Slash _ | GeneralComment _ _ _ | Quoted _ => None
  end.

(** The import declarations up to the end of the file; [group] says that
    the parser is inside the parentheses of one. *)
Fixpoint parse_imports (group : bool) (tokens : list Token) : bool :=
  match tokens with
  | [] => negb group
  | IMPORT :: STRING _ :: SEMICOLON :: rest =>
      negb group && parse_imports false rest
  | IMPORT :: LPAREN :: rest => negb group && parse_imports true rest
  | STRING _ :: SEMICOLON :: rest => group && parse_imports true rest
  | STRING _ :: RPAREN :: SEMICOLON :: rest =>
      group && parse_imports false rest
  | RPAREN :: SEMICOLON :: rest => group && parse_imports false rest
  | _ => false
  end.

Definition parse_file (tokens : list Token) : bool :=
  match tokens with
  | PACKAGE :: IDENT _ :: SEMICOLON :: rest => parse_imports false rest
  | _ => false
  end.

(** A source file with a package clause, import declarations and nothing
    else. *)
Definition declares_nothing (src : string) : bool :=
  match scan (Code false) src with
  | Some (tokens, m) =>
      match scan_end m with
      | Some last => parse_file (tokens ++ last)
      | None => false
      end
  | None => false
  end.

(** White space and comments only, each comment ended: scanning leaves no
    token and ends between tokens. *)
Definition is_banner (text : string) : Prop :=
  scan (Code false) text = Some ([], Code false).

(** ** [generate] *)

(** Where the body of [generate] stands. *)
Inductive MainPc :=
| MainReadFile
| MainUnmarshal (apiDef : string)
| MainMake (objs : list Object)
| MainRange (objs rest : list Object)
| MainMkdir (objs : list Object)
| MainGo (objs : list Object) (started : nat)
| MainWait (objs : list Object)
| MainReturn (objs : list Object).

(** The four [go] statements of [generate], in order. *)
Definition goroutines (E : Externals) : list (string * string) :=
  [ (moTmpl E, "mo"); (doTmpl E, "do"); (enumTmpl E, "enum");
    (faultTmpl E, "fault") ].

(** The running program: the body of [generate], the goroutines it has
    started, and the world they share. *)
Record Machine := mkMachine {
  main : MainPc;
  tasks : list Frame;
  world : World }.

(** One step of the body of [generate]. *)
Definition main_step (E : Externals) (apiDefFile : string) (m : Machine) : Machine :=
  let w := world m in
  match main m with
  | MainReadFile =>
      match ioutil_ReadFile E apiDefFile with
      | inr err => mkMachine (main m) (tasks m) (log_Fatal (err +:+ String LF "") w)
      | inl apiDef => mkMachine (MainUnmarshal apiDef) (tasks m) w
      end
  | MainUnmarshal apiDef =>
      match json_Unmarshal E apiDef with
      | inr err => mkMachine (main m) (tasks m) (log_Fatal (err +:+ String LF "") w)
      | inl objs => mkMachine (MainMake objs) (tasks m) w
      end
  | MainMake objs =>
      mkMachine (MainRange objs objs) (tasks m) (set_objnsmap ∅ w)
  | MainRange objs [] => mkMachine (MainMkdir objs) (tasks m) w
  | MainRange objs (obj :: rest) =>
      mkMachine (MainRange objs rest) (tasks m)
        (set_objnsmap (<[Name obj := Namespace obj]> (objnsmap w)) w)
  | MainMkdir objs => mkMachine (MainGo objs 0) (tasks m) (os_Mkdir E "./vim" w)
  | MainGo objs k =>
      match goroutines E !! k with
      | Some (tmpl, namespace) =>
          mkMachine (MainGo objs (S k))
            (tasks m ++ [call_genCode objs "./vim" tmpl namespace]) w
      | None => mkMachine (MainWait objs) (tasks m) w
      end
  | MainWait objs =>
      if forallb finished (tasks m) then mkMachine (MainReturn objs) (tasks m) w
      else m
  | MainReturn _ => m
  end.

(** The interleavings: while the process has not exited, either the body of
    [generate] or any goroutine that has not returned takes its next
    step. *)
Inductive step (E : Externals) (apiDefFile : string) : Machine → Machine → Prop :=
| step_main m :
    exited (world m) = None →
    step E apiDefFile m (main_step E apiDefFile m)
| step_task m i f f' w' :
    exited (world m) = None →
    tasks m !! i = Some f →
    finished f = false →
    genCode_step E f (world m) = (f', w') →
    step E apiDefFile m (mkMachine (main m) (<[i := f']> (tasks m)) w').

(** The program at its start: [objnsmap] is the nil map. *)
Definition boot (w : World) : Machine := mkMachine MainReadFile [] w.

Definition fresh_world (f : FileSystem) : World := mkWorld ∅ f [] None.

(** The states an execution of [generate(apiDefFile)] passes through. *)
Definition reachable (E : Externals) (apiDefFile : string) (f : FileSystem)
    (m : Machine) : Prop :=
  rtc (step E apiDefFile) (boot (fresh_world f)) m.

(** The build pass is over: the body of [generate] is past its loop over
    the objects it holds. *)
Definition past_build (p : MainPc) : option (list Object) :=
  match p with
  | MainMkdir objs | MainGo objs _ | MainWait objs | MainReturn objs => Some objs
  | _ => None
  end.

(** What holds of every state of a run: no goroutine is started while the
    build pass runs, the map holds the objects passed so far, and past the
    loop it is the index of all the objects. *)
Definition generate_inv (m : Machine) : Prop :=
  match main m with
  | MainReadFile | MainUnmarshal _ | MainMake _ => tasks m = []
  | MainRange objs rest =>
      tasks m = [] ∧
      ∃ passed, objs = passed ++ rest ∧ objnsmap (world m) = buildIndex passed
  | MainMkdir objs => tasks m = [] ∧ objnsmap (world m) = buildIndex objs
  | MainGo objs _ | MainWait objs | MainReturn objs =>
      objnsmap (world m) = buildIndex objs
  end.

(** *** Schedules *)

(** The step of the goroutine [i], when it has one to take. *)
Definition task_step (E : Externals) (i : nat) (m : Machine) : Machine :=
  match tasks m !! i with
  | Some f =>
      if finished f then m
      else mkMachine (main m)
             (<[i := (genCode_step E f (world m)).1]> (tasks m))
             (genCode_step E f (world m)).2
  | None => m
  end.

(** A schedule says who takes each step: the body of [generate] ([None])
    or a goroutine.  Nothing moves once the process has exited. *)
Definition run_schedule (E : Externals) (apiDefFile : string)
    (schedule : list (option nat)) (m : Machine) : Machine :=
  foldl (λ m who,
           if bool_decide (exited (world m) = None) then
             match who with
             | None => main_step E apiDefFile m
             | Some i => task_step E i m
             end
           else m)
        m schedule.

(** The schema file was read and parsed into [objs]. *)
Definition parsed (E : Externals) (apiDefFile : string) (objs : list Object) : Prop :=
  ∃ apiDef,
    ioutil_ReadFile E apiDefFile = inl apiDef ∧ json_Unmarshal E apiDef = inl objs.

(** What a goroutine has done so far, by its position: in the loop its
    buffer is what the objects passed render to, past the loop what all
    the objects render to, and once it has returned the file of its
    namespace holds the formatted buffer. *)
Definition task_inv (E : Externals) (objs : list Object) (w : World) (f : Frame)
  : Prop :=
  match pc f with
  | AtMkdir | AtCreate | AtHeader => True
  | AtRange rest =>
      ∃ passed, objs = passed ++ rest ∧
        render E (tmpl f) (buildIndex objs) (namespace f) passed
          (boilerplate E (namespace f)) = LoopDone (data f)
  | AtFormat =>
      render E (tmpl f) (buildIndex objs) (namespace f) objs
        (boilerplate E (namespace f)) = LoopDone (data f)
  | AtReturn =>
      ∃ fsource,
        render E (tmpl f) (buildIndex objs) (namespace f) objs
          (boilerplate E (namespace f)) = LoopDone (data f) ∧
        format_Source E (data f) = inl fsource ∧
        files (fs w) !! file_of f = Some fsource
  end.

(** The goroutines started so far are the first of the four, each a call
    of [genCode] on all the objects. *)
Definition pool_inv (E : Externals) (objs : list Object) (m : Machine) : Prop :=
  ∀ i f, tasks m !! i = Some f →
    ∃ t ns, goroutines E !! i = Some (t, ns) ∧
      objects f = objs ∧ mainPkg f = "./vim" ∧ tmpl f = t ∧ namespace f = ns ∧
      task_inv E objs (world m) f.

(** What holds of every state of a run, beside [generate_inv]. *)
Definition run_inv (E : Externals) (apiDefFile : string) (m : Machine) : Prop :=
  generate_inv m ∧
  match main m with
  | MainReadFile => True
  | MainUnmarshal apiDef => ioutil_ReadFile E apiDefFile = inl apiDef
  | MainMake objs | MainRange objs _ | MainMkdir objs => parsed E apiDefFile objs
  | MainGo objs k =>
      parsed E apiDefFile objs ∧ length (tasks m) = k ∧ k ≤ 4 ∧ pool_inv E objs m
  | MainWait objs =>
      parsed E apiDefFile objs ∧ length (tasks m) = 4 ∧ pool_inv E objs m
  | MainReturn objs =>
      parsed E apiDefFile objs ∧ length (tasks m) = 4 ∧ pool_inv E objs m ∧
      forallb finished (tasks m) = true ∧ exited (world m) = None
  end.

(** What holds of every state of a run whose schema cannot be read or
    parsed: nothing is started, and nothing is changed but the log and the
    exit status. *)
Definition input_error_inv (E : Externals) (apiDefFile : string) (f : FileSystem)
    (err : string) (m : Machine) : Prop :=
  (main m = MainReadFile ∨
   ∃ apiDef, main m = MainUnmarshal apiDef ∧
             ioutil_ReadFile E apiDefFile = inl apiDef) ∧
  tasks m = [] ∧ fs (world m) = f ∧ objnsmap (world m) = ∅ ∧
  (exited (world m) = None ∧ log (world m) = [] ∨
   exited (world m) = Some 1%Z ∧ log (world m) = [err +:+ String LF ""]).

(** ** A scenario

    The end-to-end scenario of the specification: a managed object
    [VirtualMachine] with a field of the data object [HostSystem], in a
    world where every file can be created and every template renders.
    [formats] says whether [format.Source] accepts what it is given. *)

Definition scenario_objects : list Object :=
  [ mkObject "VirtualMachine" "mo" ""
      [mkField "name" "xsd:string" ""; mkField "host" "HostSystem" ""] [];
    mkObject "HostSystem" "do" "" [] [] ].

Definition scenario (formats : bool) : Externals :=
  mkExternals
    ("// This Source Code Form is subject to the terms of the MPL."
     +:+ String LF "")
    "mo template" "do template" "enum template" "fault template"
    (λ fs path, (bool_decide (path ∈ dirs fs), None))
    (λ _, inl "schema")
    (λ _, inl scenario_objects)
    (λ _ _, None)
    (λ _ _, None)
    (λ tmpl objnsmap obj,
       RenderOk ("type " +:+ Name obj +:+ " struct {}" +:+ String LF ""))
    (λ source, if formats then inl source else inr "expected declaration").

(** The scenario after eight steps of the body of [generate]: the schema
    is read, the index is built, and the first goroutine is started. *)
Definition scenario_run : Machine :=
  Nat.iter 8 (main_step (scenario true) "api.json")
    (boot (fresh_world (mkFS ∅ ∅))).

(** A world where executing a template fails. *)
Definition scenario_no_field : Externals :=
  mkExternals "" "" "" "" "" (λ _ _, (true, None)) (λ _, inl "")
    (λ _, inl []) (λ _ _, None) (λ _ _, None)
    (λ _ _ _, RenderError "no such field")
    (λ s, inl s).

(** A world where no file can be created. *)
Definition scenario_read_only : Externals :=
  mkExternals "" "" "" "" "" (λ _ _, (true, None)) (λ _, inl "")
    (λ _, inl scenario_objects) (λ _ _, Some "permission denied")
    (λ _ _, Some "permission denied") (λ _ _ _, RenderOk "") (λ s, inl s).

(** A whole run of the scenario: the goroutines take their first steps
    while the body of [generate] is still starting the others, then step
    in turn until each has returned, and [generate] returns. *)
Definition scenario_schedule : list (option nat) :=
  replicate 8 None ++ [Some 0; None; Some 0; Some 1; None; None; None]
  ++ concat (replicate 7 [Some 3; Some 0; Some 2; Some 1]) ++ [None].

Definition scenario_end : Machine :=
  run_schedule (scenario true) "api.json" scenario_schedule
    (boot (fresh_world (mkFS ∅ ∅))).

(** A world where the schema file cannot be read. *)
Definition scenario_unreadable : Externals :=
  mkExternals "" "" "" "" "" (λ _ _, (true, None))
    (λ _, inr "no such file or directory")
    (λ _, inl scenario_objects) (λ _ _, None) (λ _ _, None)
    (λ _ _ _, RenderOk "") (λ s, inl s).

(** A world with the output root and nothing below it, as [generate]
    leaves it before it starts the goroutines: a directory or a file is
    made where the parent is a directory, and [format.Source] takes the
    files that declare nothing and returns them as they are. *)
Definition scenario_disk : Externals :=
  mkExternals
    ("/* This Source Code Form is subject to" +:+ String LF
       " * the terms of the MPL. */" +:+ String LF
       "// Generated, do not edit." +:+ String LF "")
    "mo template" "do template" "enum template" "fault template"
    (λ fs path, (taken fs path, None))
    (λ _, inl "schema")
    (λ _, inl scenario_objects)
    (λ fs path,
       if is_dir fs (parent path) && negb (is_dir fs path) then None
       else Some "no such file or directory")
    (λ _ _, None)
    (λ tmpl objnsmap obj,
       RenderOk ("type " +:+ Name obj +:+ " struct {}" +:+ String LF ""))
    (λ source,
       if declares_nothing source then inl source
       else inr "expected declaration").

Definition scenario_root : World := fresh_world (mkFS {["./vim"]} ∅).

(** * Properties *)

(** ** Strings *)

Module GoFacts.

Lemma app_cons (c : ascii) (s t : string) :
  String c s +:+ t = String c (s +:+ t).
Proof. reflexivity. Qed.

Lemma app_empty_l (s : string) : "" +:+ s = s.
Proof. reflexivity. Qed.

Lemma app_empty_r (s : string) : s +:+ "" = s.
Proof. induction s as [|c s IH]; [done|]. by rewrite app_cons, IH. Qed.

Lemma app_assoc (s t u : string) : (s +:+ t) +:+ u = s +:+ (t +:+ u).
Proof. induction s as [|c s IH]; [done|]. by rewrite !app_cons, IH. Qed.

Lemma len_app (s t : string) : Go.len (s +:+ t) = Go.len s + Go.len t.
Proof.
  induction s as [|c s IH]; [done|].
  rewrite app_cons. unfold Go.len in *. simpl. by rewrite IH.
Qed.

Lemma len_zero (s : string) : Go.len s = 0 → s = "".
Proof. by destruct s. Qed.

Lemma app_not_empty (s : string) (c : ascii) (t : string) :
  s +:+ String c t ≠ "".
Proof. by destruct s. Qed.

Lemma take_app_len (s t : string) : Go.take (Go.len s) (s +:+ t) = s.
Proof.
  induction s as [|c s IH]; [by destruct t|].
  rewrite app_cons. unfold Go.len in *. simpl. by rewrite IH.
Qed.

Lemma drop_app_len (s t : string) : Go.drop (Go.len s) (s +:+ t) = t.
Proof.
  induction s as [|c s IH]; [done|].
  rewrite app_cons. unfold Go.len in *. simpl. by rewrite IH.
Qed.

Lemma take_drop (n : nat) (s : string) : Go.take n s +:+ Go.drop n s = s.
Proof.
  revert s. induction n as [|n IH]; intros [|c s]; try done.
  simpl. by rewrite app_cons, IH.
Qed.

Lemma take_all (s : string) : Go.take (Go.len s) s = s.
Proof. rewrite <- (app_empty_r s) at 2. apply take_app_len. Qed.

Lemma drop_zero (s : string) : Go.drop 0 s = s.
Proof. by destruct s. Qed.

Lemma HasSuffix_app (s suffix : string) : Go.HasSuffix (s +:+ suffix) suffix = true.
Proof.
  unfold Go.HasSuffix. rewrite len_app.
  rewrite bool_decide_eq_true_2 by lia.
  replace (Go.len s + Go.len suffix - Go.len suffix) with (Go.len s) by lia.
  rewrite drop_app_len. by rewrite bool_decide_eq_true_2.
Qed.

Lemma Count_app (s t : string) (sep : ascii) :
  Go.Count (s +:+ t) sep = Go.Count s sep + Go.Count t sep.
Proof.
  induction s as [|c s IH]; [done|].
  rewrite app_cons. simpl. rewrite IH. lia.
Qed.

Lemma Split_not_nil (s : string) (sep : ascii) : Go.Split s sep ≠ [].
Proof.
  induction s as [|c s IH]; [done|]. simpl.
  case_bool_decide; [done|]. by destruct (Go.Split s sep).
Qed.

(** A string without separator is the only piece. *)
Lemma Split_no_sep (s : string) (sep : ascii) :
  Go.Count s sep = 0 → Go.Split s sep = [s].
Proof.
  induction s as [|c s IH]; [done|]. simpl.
  case_bool_decide; [lia|]. intros Hs. by rewrite IH.
Qed.

(** The first piece ends at the first separator. *)
Lemma Split_app_sep (p k : string) (sep : ascii) :
  Go.Count p sep = 0 →
  Go.Split (p +:+ String sep k) sep = p :: Go.Split k sep.
Proof.
  induction p as [|c p IH]; simpl.
  - intros _. change ("" +:+ String sep k) with (String sep k). simpl.
    by rewrite bool_decide_eq_true_2.
  - case_bool_decide; [lia|]. intros Hp.
    change (String c p +:+ String sep k) with (String c (p +:+ String sep k)).
    simpl. rewrite ?bool_decide_eq_false_2 by done. by rewrite IH by lia.
Qed.

(** Every string is either one piece, or a first piece, a separator and
    the rest. *)
Lemma Split_cases (s : string) (sep : ascii) :
  Go.Count s sep = 0 ∨
  ∃ p k, s = p +:+ String sep k ∧ Go.Count p sep = 0.
Proof.
  induction s as [|c s IH]; [by left|]. simpl.
  case_bool_decide as Hc.
  - right. exists "", s. by subst.
  - destruct IH as [IH|(p & k & -> & Hp)]; [left; lia|].
    right. exists (String c p), k. split; [done|]. simpl.
    by rewrite bool_decide_eq_false_2.
Qed.

End GoFacts.

(** ** The escaper of reserved words *)


Lemma reservedWords_keys_NoDup : NoDup (reservedWords_entries.*1).
Proof. refine (bool_decide_unpack _ _). vm_compute. exact I. Qed.

Lemma reservedWords_lookup (k v : string) :
  reservedWords !! k = Some v ↔ (k, v) ∈ reservedWords_entries.
Proof.
  unfold reservedWords. symmetry.
  apply elem_of_list_to_map, reservedWords_keys_NoDup.
Qed.

Lemma reservedWords_entry_shape (k v : string) :
  (k, v) ∈ reservedWords_entries →
  v = k +:+ "_" ∧ v ≠ "" ∧ reservedWords !! v = None.
Proof.
  unfold reservedWords_entries. rewrite !elem_of_cons, elem_of_nil.
  intros H.
  repeat (destruct H as [H|H]; [injection H as -> ->; by vm_compute|]).
  destruct H.
Qed.

Lemma replaceReservedWords_hit (k v : string) :
  reservedWords !! k = Some v → replaceReservedWords k = k +:+ "_".
Proof.
  intros Hk. pose proof Hk as Hin. apply reservedWords_lookup in Hin.
  apply reservedWords_entry_shape in Hin as (Hv & Hne & _).
  unfold replaceReservedWords, Go.index. rewrite Hk. simpl.
  case_bool_decide as Hd; [done | by destruct Hd].
Qed.

Lemma replaceReservedWords_miss (k : string) :
  reservedWords !! k = None → replaceReservedWords k = k.
Proof.
  intros Hk. unfold replaceReservedWords, Go.index. by rewrite Hk.
Qed.

(** C4. The escaper appends the suffix ["_"] to every identifier of the
    reserved-word table, returns every other identifier unchanged, and is
    idempotent. *)
Theorem replaceReservedWords_spec :
  (∀ identifier, identifier ∈ dom reservedWords →
     replaceReservedWords identifier = identifier +:+ "_") ∧
  (∀ identifier, identifier ∉ dom reservedWords →
     replaceReservedWords identifier = identifier) ∧
  (∀ identifier,
     replaceReservedWords (replaceReservedWords identifier)
     = replaceReservedWords identifier).
Proof.
  split; [|split].
  - intros k [v Hv]%elem_of_dom. by eapply replaceReservedWords_hit.
  - intros k Hk. apply replaceReservedWords_miss.
    by apply not_elem_of_dom.
  - intros k. destruct (reservedWords !! k) as [v|] eqn:Hk.
    + pose proof Hk as Hin. apply reservedWords_lookup in Hin.
      apply reservedWords_entry_shape in Hin as (Hv & _ & Hnone).
      rewrite (replaceReservedWords_hit k v Hk). rewrite <- Hv.
      by apply replaceReservedWords_miss.
    + by rewrite !(replaceReservedWords_miss k Hk).
Qed.

(** ** The type mapper *)

Lemma xsd2GoTypes_keys_NoDup : NoDup (xsd2GoTypes_entries.*1).
Proof. refine (bool_decide_unpack _ _). vm_compute. exact I. Qed.

Lemma xsd2GoTypes_lookup (k v : string) :
  xsd2GoTypes !! k = Some v ↔ (k, v) ∈ xsd2GoTypes_entries.
Proof.
  unfold xsd2GoTypes. symmetry.
  apply elem_of_list_to_map, xsd2GoTypes_keys_NoDup.
Qed.

(** No key of the table holds a colon or ends in ["[]"], and no value is
    empty. *)
Lemma xsd2GoTypes_entry_shape (k v : string) :
  xsd2GoTypes !! k = Some v →
  Go.Count k ":" = 0 ∧ Go.HasSuffix k "[]" = false ∧ v ≠ "".
Proof.
  rewrite xsd2GoTypes_lookup. unfold xsd2GoTypes_entries.
  rewrite !elem_of_cons, elem_of_nil. intros H.
  repeat (destruct H as [H|H]; [injection H as -> ->; by vm_compute|]).
  destruct H.
Qed.

Lemma stripns_local (k : string) : Go.Count k ":" = 0 → stripns k = k.
Proof. intros Hk. unfold stripns. by rewrite GoFacts.Split_no_sep. Qed.

Lemma stripns_qualified (prefix k : string) :
  Go.Count prefix ":" = 0 → Go.Count k ":" = 0 →
  stripns (prefix +:+ ":" +:+ k) = k.
Proof.
  intros Hp Hk. unfold stripns.
  change (":" +:+ k) with (String ":" k).
  rewrite GoFacts.Split_app_sep by done. by rewrite GoFacts.Split_no_sep.
Qed.

(** [toGoType] is the rest of its body applied to the local name. *)
Lemma toGoType_stripns (xsdType : string) :
  xsdType ≠ "" →
  toGoType xsdType =
    let type_ := stripns xsdType in
    let value := Go.index xsd2GoTypes type_ in
    if bool_decide (value ≠ "") then value
    else if Go.HasSuffix type_ "[]" then
      let type_ := Go.take (Go.len type_ - 2) type_ in
      if Go.has xsd2GoTypes type_ then "[]" +:+ type_ else "[]*" +:+ type_
    else "*" +:+ type_.
Proof. intros Hne. unfold toGoType. by rewrite bool_decide_eq_false_2. Qed.

Lemma toGoType_of_table_name (xsdType name native : string) :
  xsdType ≠ "" → stripns xsdType = name →
  xsd2GoTypes !! name = Some native →
  toGoType xsdType = native.
Proof.
  intros Hne Hstrip Hlook. rewrite toGoType_stripns by done. cbv zeta.
  rewrite Hstrip. unfold Go.index. rewrite Hlook.
  change (default "" (Some native)) with native.
  apply xsd2GoTypes_entry_shape in Hlook as (_ & _ & Hv).
  by rewrite bool_decide_eq_true_2.
Qed.

(** C5. A token whose local name is in the primitive table maps to the
    native type the table declares, with or without a namespace prefix
    before the colon. *)
Theorem toGoType_primitive (name native : string) :
  xsd2GoTypes !! name = Some native →
  toGoType name = native ∧
  ∀ prefix, Go.Count prefix ":" = 0 →
    toGoType (prefix +:+ ":" +:+ name) = native
    ∧ toGoType (prefix +:+ ":" +:+ name) = toGoType name.
Proof.
  intros Hlook.
  destruct (xsd2GoTypes_entry_shape _ _ Hlook) as (Hk & _ & _).
  assert (toGoType name = native) as Hbare.
  { apply (toGoType_of_table_name name name native); [|by apply stripns_local|done].
    intros ->. by vm_compute in Hlook. }
  split; [done|]. intros prefix Hp.
  rewrite Hbare. apply and_wlog_r; [|done].
  apply (toGoType_of_table_name _ name native); [|by apply stripns_qualified|done].
  apply GoFacts.app_not_empty.
Qed.

Lemma toGoType_primitive_witness :
  toGoType "int" = "int32" ∧
  ∀ prefix, Go.Count prefix ":" = 0 →
    toGoType (prefix +:+ ":" +:+ "int") = "int32"
    ∧ toGoType (prefix +:+ ":" +:+ "int") = toGoType "int".
Proof. apply (toGoType_primitive "int" "int32"). reflexivity. Defined.

(** The sequence of a base name that is not in the table is a sequence of
    references to it. *)
Lemma toGoType_array_of_composite (base : string) :
  Go.Count base ":" = 0 → xsd2GoTypes !! base = None →
  toGoType (base +:+ "[]") = "[]*" +:+ base.
Proof.
  intros Hc Hbase.
  rewrite toGoType_stripns by apply GoFacts.app_not_empty. cbv zeta.
  rewrite stripns_local by (rewrite GoFacts.Count_app, Hc; reflexivity).
  destruct (xsd2GoTypes !! (base +:+ "[]")) as [v|] eqn:Hv.
  { apply xsd2GoTypes_entry_shape in Hv as (_ & Hs & _).
    by rewrite GoFacts.HasSuffix_app in Hs. }
  unfold Go.index, Go.has. rewrite Hv.
  change (default "" None) with "".
  rewrite (bool_decide_eq_false_2 ("" ≠ "")) by (intros H; by apply H).
  rewrite GoFacts.HasSuffix_app, GoFacts.len_app.
  replace (Go.len base + Go.len "[]" - 2) with (Go.len base) by (simpl; lia).
  rewrite GoFacts.take_app_len, Hbase.
  rewrite bool_decide_eq_false_2; [done|]. by intros [? ?].
Qed.

(** C1. The sequence of a base name of the primitive table keeps the
    schema name of the base as its element type: the native type the table
    maps the base to is not used.  So ["short[]"] maps to ["[]short"],
    where the specification expects ["[]int16"], the sequence of what
    ["short"] maps to. *)
Theorem toGoType_array_of_primitive :
  Forall (λ entry, toGoType (entry.1 +:+ "[]") = "[]" +:+ entry.1)
    xsd2GoTypes_entries
  ∧ toGoType "short[]" = "[]short"
  ∧ toGoType "short" = "int16"
  ∧ toGoType "dateTime[]" = "[]dateTime"
  ∧ toGoType "dateTime" = "time.Time".
Proof.
  split; [|by vm_compute].
  unfold xsd2GoTypes_entries. repeat (constructor; [by vm_compute|]). constructor.
Qed.

(** ** Resolving a type reference *)

Lemma slice_Some (s : string) (lo hi : nat) :
  lo ≤ hi ≤ Go.len s → Go.slice s lo hi = Some (Go.take (hi - lo) (Go.drop lo s)).
Proof. intros H. unfold Go.slice. by rewrite bool_decide_eq_true_2. Qed.

Lemma slice_None (s : string) (lo hi : nat) :
  ¬ (lo ≤ hi ≤ Go.len s) → Go.slice s lo hi = None.
Proof. intros H. unfold Go.slice. by rewrite bool_decide_eq_false_2. Qed.

Lemma slice_from_Some (s : string) (lo : nat) :
  lo ≤ Go.len s → Go.slice_from s lo = Some (Go.drop lo s).
Proof.
  intros H. unfold Go.slice_from. rewrite slice_Some by lia.
  f_equal. rewrite <- (GoFacts.take_drop lo s) at 1.
  rewrite GoFacts.len_app.
  replace (Go.len (Go.take lo s) + Go.len (Go.drop lo s) - lo)
    with (Go.len (Go.drop lo s)); [apply GoFacts.take_all|].
  assert (Go.len (Go.take lo s) = lo); [|lia].
  clear -H. revert s H. induction lo as [|lo IH]; intros [|c s] H;
    simpl in *; try done; try lia. unfold Go.len in *. simpl. rewrite IH; [done|lia].
Qed.

Lemma HasPrefix_star (c : ascii) (s : string) :
  Go.HasPrefix (String c s) "*" = bool_decide (c = "*"%char).
Proof.
  unfold Go.HasPrefix, Go.len. simpl.
  apply bool_decide_ext. split; [by intros [= ->]|by intros ->].
Qed.

(** The three slice expressions of [lookUpNamespace] on a string of at
    least three bytes: none panics. *)
Lemma lookUpNamespace_long (objnsmap : gmap string string)
    (c0 c1 c2 : ascii) (t currentNs : string) :
  is_Some (lookUpNamespace objnsmap (String c0 (String c1 (String c2 t))) currentNs).
Proof.
  unfold lookUpNamespace.
  rewrite bool_decide_eq_false_2 by done.
  rewrite (slice_Some _ 0 1) by (unfold Go.len; simpl; lia).
  rewrite (slice_Some _ 0 3) by (unfold Go.len; simpl; lia).
  rewrite (slice_Some _ 0 2) by (unfold Go.len; simpl; lia).
  rewrite !slice_from_Some by (unfold Go.len; simpl; lia).
  simpl. repeat case_bool_decide; simpl; repeat case_match; by eexists.
Qed.

(** C3. [lookUpNamespace] panics on every type string of one or two bytes
    that does not begin with ["*"]: [type_[0:3]] is out of range.  It
    returns on the empty string, on a string that begins with ["*"], and on
    every string of at least three bytes. *)
Theorem lookUpNamespace_panics :
  (∀ (objnsmap : gmap string string) (type_ currentNs : string),
     Go.len type_ = 1 ∨ Go.len type_ = 2 →
     Go.HasPrefix type_ "*" = false →
     lookUpNamespace objnsmap type_ currentNs = None) ∧
  (∀ (objnsmap : gmap string string) (type_ currentNs : string),
     type_ = "" ∨ Go.HasPrefix type_ "*" = true ∨ 3 ≤ Go.len type_ →
     is_Some (lookUpNamespace objnsmap type_ currentNs)).
Proof.
  split; intros objnsmap type_ currentNs.
  - intros Hlen Hstar.
    destruct type_ as [|c0 t]; [unfold Go.len in Hlen; simpl in Hlen; lia|].
    rewrite HasPrefix_star in Hstar. apply bool_decide_eq_false in Hstar.
    unfold lookUpNamespace. rewrite bool_decide_eq_false_2 by done.
    rewrite (slice_Some _ 0 1) by (unfold Go.len; simpl; lia).
    rewrite (slice_None _ 0 3) by (unfold Go.len in *; simpl in *; lia).
    simpl. rewrite bool_decide_eq_false_2; [done|].
    destruct t; simpl; congruence.
  - intros [->|[Hstar|Hlen]].
    + by eexists.
    + destruct type_ as [|c0 t]; [done|].
      rewrite HasPrefix_star in Hstar. apply bool_decide_eq_true in Hstar as ->.
      unfold lookUpNamespace. rewrite bool_decide_eq_false_2 by done.
      rewrite (slice_Some _ 0 1) by (unfold Go.len; simpl; lia).
      rewrite slice_from_Some by (unfold Go.len; simpl; lia).
      simpl. destruct t; simpl; case_match; by eexists.
    + destruct type_ as [|c0 [|c1 [|c2 t]]];
        try (unfold Go.len in Hlen; simpl in Hlen; lia).
      apply lookUpNamespace_long.
Qed.

Lemma lookUpNamespace_tail (objnsmap : gmap string string)
    (deco name currentNs : string) :
  (let targetNs := Go.index objnsmap name in
   if bool_decide (targetNs = "") || bool_decide (targetNs = currentNs)
   then Some (deco +:+ name)
   else Some (deco +:+ targetNs +:+ "." +:+ name))
  = Some (resolved objnsmap deco name currentNs).
Proof.
  unfold resolved, Go.index. destruct (objnsmap !! name) as [owner|]; simpl.
  - repeat case_bool_decide; simpl; try done; exfalso; tauto.
  - done.
Qed.

Lemma HasPrefix_brackets (c0 c1 : ascii) (s : string) :
  Go.HasPrefix (String c0 (String c1 s)) "[]" = false →
  String c0 (String c1 "") ≠ "[]".
Proof.
  unfold Go.HasPrefix, Go.len. simpl. intros H Heq.
  by rewrite (bool_decide_eq_true_2 _ Heq) in H.
Qed.

(** The slice expressions of [lookUpNamespace], all in range. *)
Ltac slices :=
  unfold lookUpNamespace;
  rewrite bool_decide_eq_false_2 by done;
  rewrite ?(slice_Some _ 0 1) by (unfold Go.len; simpl; lia);
  rewrite ?(slice_Some _ 0 3) by (unfold Go.len; simpl; lia);
  rewrite ?(slice_Some _ 0 2) by (unfold Go.len; simpl; lia);
  rewrite ?slice_from_Some by (unfold Go.len; simpl; lia);
  cbn [Go.take Go.drop Nat.sub mbind option_bind].

(** Where no slice panics, a decorated name resolves as the specification
    says: for a bare name that begins with no decoration of its own, under
    ["*"], or under any decoration that makes three bytes with the name. *)
Lemma lookUpNamespace_resolve (objnsmap : gmap string string)
    (deco name currentNs : string) :
  deco ∈ [""; "*"; "[]"; "[]*"] →
  Go.HasPrefix name "*" = false → Go.HasPrefix name "[]" = false →
  deco = "*" ∨ 3 ≤ Go.len (deco +:+ name) →
  lookUpNamespace objnsmap (deco +:+ name) currentNs
  = Some (resolved objnsmap deco name currentNs).
Proof.
  intros Hdeco Hstar Hbr Hlen.
  rewrite <- lookUpNamespace_tail.
  rewrite !elem_of_cons, elem_of_nil in Hdeco.
  destruct Hdeco as [->|[->|[->|[->|[]]]]].
  - destruct Hlen as [?|Hlen]; [done|].
    destruct name as [|c0 [|c1 [|c2 t]]];
      try (unfold Go.len in Hlen; simpl in Hlen; lia).
    rewrite GoFacts.app_empty_l.
    rewrite HasPrefix_star in Hstar. apply bool_decide_eq_false in Hstar.
    apply HasPrefix_brackets in Hbr.
    slices.
    rewrite (bool_decide_eq_false_2 (String c0 "" = "*")) by congruence.
    rewrite (bool_decide_eq_false_2 (_ = "[]*")) by congruence.
    by rewrite (bool_decide_eq_false_2 (_ = "[]")) by congruence.
  - change ("*" +:+ name) with (String "*" name). by slices.
  - destruct Hlen as [?|Hlen]; [done|].
    destruct name as [|c0 t]; [unfold Go.len in Hlen; simpl in Hlen; lia|].
    rewrite HasPrefix_star in Hstar. apply bool_decide_eq_false in Hstar.
    change ("[]" +:+ String c0 t) with (String "[" (String "]" (String c0 t))).
    slices.
    by rewrite (bool_decide_eq_false_2 (_ = "[]*")) by congruence.
  - change ("[]*" +:+ name) with (String "[" (String "]" (String "*" name))).
    by slices.
Qed.

(** The three cases of the specification, read off [resolved]. *)
Lemma resolved_cases (objnsmap : gmap string string)
    (deco name owner currentNs : string) :
  (objnsmap !! name = None → resolved objnsmap deco name currentNs = deco +:+ name) ∧
  (objnsmap !! name = Some owner →
   resolved objnsmap deco name owner = deco +:+ name) ∧
  (objnsmap !! name = Some owner → owner ≠ "" → owner ≠ currentNs →
   resolved objnsmap deco name currentNs = deco +:+ owner +:+ "." +:+ name).
Proof.
  unfold resolved. repeat split.
  - by intros ->.
  - intros ->. rewrite bool_decide_eq_true_2; [done|by right].
  - intros -> H1 H2. rewrite bool_decide_eq_false_2; [done|]. by intros [?|?].
Qed.

(** C2. A name of two bytes that the index holds is not resolved when it
    comes undecorated: [lookUpNamespace] panics, whatever the current
    namespace.  The specification expects ["VM"] in the owning namespace
    and ["do.VM"] in another; under a decoration the name resolves. *)
Theorem lookUpNamespace_short_name :
  lookUpNamespace {["VM" := "do"]} "VM" "do" = None ∧
  lookUpNamespace {["VM" := "do"]} "VM" "mo" = None ∧
  lookUpNamespace {["VM" := "do"]} "*VM" "mo" = Some "*do.VM" ∧
  lookUpNamespace {["VM" := "do"]} "[]VM" "mo" = Some "[]do.VM" ∧
  lookUpNamespace {["VM" := "do"]} "[]*VM" "mo" = Some "[]*do.VM".
Proof. by vm_compute. Qed.

(** ** Runes *)

Module Utf8Facts.

Lemma first_cases (b : Z) :
  Go.first b ∈ [0xF0; 0xF1; 0x02; 0x13; 0x03; 0x23; 0x34; 0x04; 0x44]%Z.
Proof. unfold Go.first. repeat case_match; set_solver. Qed.

Ltac closed_Z z :=
  match z with Z0 => idtac | Zpos _ => idtac | Zneg _ => idtac end.

(** Evaluate an operation of the decoder on constants. *)
Ltac eval_step :=
  match goal with
  | |- context [Z.land ?a ?b] =>
      closed_Z a; closed_Z b;
      let v := eval vm_compute in (Z.land a b) in change (Z.land a b) with v
  | |- context [Z.shiftr ?a ?b] =>
      closed_Z a; closed_Z b;
      let v := eval vm_compute in (Z.shiftr a b) in change (Z.shiftr a b) with v
  | |- context [Go.acceptRanges ?a] =>
      closed_Z a;
      let v := eval vm_compute in (Go.acceptRanges a) in
      change (Go.acceptRanges a) with v
  | |- context [Z.leb ?a ?b] =>
      closed_Z a; closed_Z b;
      let v := eval vm_compute in (Z.leb a b) in change (Z.leb a b) with v
  | |- context [Z.eqb ?a ?b] =>
      closed_Z a; closed_Z b;
      let v := eval vm_compute in (Z.eqb a b) in change (Z.eqb a b) with v
  end.

(** The nine classes of a first byte, then every test of the decoder. *)
Ltac decode_cases b :=
  let H := fresh in
  pose proof (first_cases b) as H;
  rewrite !elem_of_cons, elem_of_nil in H;
  destruct H as [H|[H|[H|[H|[H|[H|[H|[H|[H|[]]]]]]]]]];
  rewrite !H; clear H;
  repeat eval_step; cbv beta iota zeta delta [fst snd];
  repeat (match goal with
          | |- context [(?a <? ?b)%Z] => destruct (Z.ltb_spec a b)
          end; cbv beta iota delta [orb fst snd]).

(** A rune takes at least one byte and no more than the string has. *)
Lemma decodeRune_size (n : nat) (s0 s1 s2 s3 : Z) :
  1 ≤ n → 1 ≤ (Go.decodeRune n s0 s1 s2 s3).2 ≤ n.
Proof.
  intros Hn. unfold Go.decodeRune.
  rewrite bool_decide_eq_false_2 by lia.
  decode_cases s0; lia.
Qed.

(** A sequence cut short by a line feed decodes as the same sequence cut
    short by the end of the string: the line feed is no continuation
    byte. *)
Lemma decodeRune_cut (n n' : nat) (s0 s1 s2 s3 s1' s2' s3' : Z) :
  1 ≤ n < n' →
  (2 ≤ n → s1' = s1) → (3 ≤ n → s2' = s2) → (4 ≤ n → s3' = s3) →
  (n = 1 → s1' = 10%Z) → (n = 2 → s2' = 10%Z) → (n = 3 → s3' = 10%Z) →
  Go.decodeRune n' s0 s1' s2' s3' = Go.decodeRune n s0 s1 s2 s3.
Proof.
  intros Hn H1 H2 H3 E1 E2 E3. unfold Go.decodeRune.
  rewrite !bool_decide_eq_false_2 by lia.
  decode_cases s0; try reflexivity; try lia.
  all: rewrite ?H1, ?H2, ?H3 by lia; reflexivity.
Qed.

Lemma len_cons (c : ascii) (s : string) : Go.len (String c s) = S (Go.len s).
Proof. reflexivity. Qed.

Lemma len_drop (n : nat) (s : string) : Go.len (Go.drop n s) = Go.len s - n.
Proof.
  revert s. induction n as [|n IH]; intros [|c s]; try done.
  change (Go.drop (S n) (String c s)) with (Go.drop n s).
  rewrite IH, len_cons. lia.
Qed.

Lemma drop_app_le (n : nat) (s t : string) :
  n ≤ Go.len s → Go.drop n (s +:+ t) = Go.drop n s +:+ t.
Proof.
  revert s. induction n as [|n IH]; intros s Hn.
  - by rewrite !GoFacts.drop_zero.
  - destruct s as [|c s]; [unfold Go.len in Hn; simpl in Hn; lia|].
    rewrite len_cons in Hn.
    change (Go.drop (S n) (String c s +:+ t)) with (Go.drop n (s +:+ t)).
    change (Go.drop (S n) (String c s)) with (Go.drop n s).
    apply IH. lia.
Qed.

Lemma byte_at_app_l (s t : string) (i : nat) :
  i < Go.len s → Go.byte_at (s +:+ t) i = Go.byte_at s i.
Proof.
  revert i. induction s as [|c s IH]; intros i Hi.
  - unfold Go.len in Hi. simpl in Hi. lia.
  - rewrite GoFacts.app_cons. destruct i as [|i]; [done|].
    rewrite len_cons in Hi. unfold Go.byte_at in *. simpl. apply IH. lia.
Qed.

Lemma byte_at_app_r (s : string) (c : ascii) (t : string) :
  Go.byte_at (s +:+ String c t) (Go.len s) = Z.of_N (N_of_ascii c).
Proof.
  induction s as [|c' s IH]; [done|].
  rewrite GoFacts.app_cons, len_cons. unfold Go.byte_at in *. simpl. apply IH.
Qed.

Lemma Decode_size (s : string) :
  s ≠ "" → 1 ≤ (Go.DecodeRuneInString s).2 ≤ Go.len s.
Proof.
  intros Hs. apply decodeRune_size. destruct s; [done|]. rewrite len_cons. lia.
Qed.

Lemma Decode_cut (l rest : string) :
  l ≠ "" →
  Go.DecodeRuneInString (l +:+ String LF rest) = Go.DecodeRuneInString l.
Proof.
  intros Hl. unfold Go.DecodeRuneInString.
  assert (1 ≤ Go.len l) by (destruct l; [done|rewrite len_cons; lia]).
  rewrite (byte_at_app_l l _ 0) by lia.
  apply decodeRune_cut.
  - rewrite GoFacts.len_app, len_cons. lia.
  - intros. apply byte_at_app_l. lia.
  - intros. apply byte_at_app_l. lia.
  - intros. apply byte_at_app_l. lia.
  - intros E. rewrite <- E. apply byte_at_app_r.
  - intros E. rewrite <- E. apply byte_at_app_r.
  - intros E. rewrite <- E. apply byte_at_app_r.
Qed.

Lemma Decode_LF (rest : string) :
  Go.DecodeRuneInString (String LF rest) = (10%Z, 1).
Proof. reflexivity. Qed.

Lemma range_from_S (fuel i : nat) (c : ascii) (t : string) :
  Go.range_from (S fuel) i (String c t) =
    (i, (Go.DecodeRuneInString (String c t)).1)
    :: Go.range_from fuel (i + (Go.DecodeRuneInString (String c t)).2)
         (Go.drop (Go.DecodeRuneInString (String c t)).2 (String c t)).
Proof. simpl. by destruct (Go.DecodeRuneInString (String c t)). Qed.

(** More fuel than the length changes nothing. *)
Lemma range_from_fuel (f1 f2 i : nat) (s : string) :
  Go.len s ≤ f1 → Go.len s ≤ f2 → Go.range_from f1 i s = Go.range_from f2 i s.
Proof.
  revert f2 i s. induction f1 as [|f1 IH]; intros [|f2] i [|c t] H1 H2;
    try done; try (rewrite len_cons in *; lia).
  rewrite !range_from_S. f_equal.
  pose proof (Decode_size (String c t) ltac:(done)) as Hsz.
  rewrite len_cons in *. apply IH; rewrite len_drop, len_cons; lia.
Qed.

Lemma range_from_runes (fuel i j : nat) (s : string) :
  (Go.range_from fuel i s).*2 = (Go.range_from fuel j s).*2.
Proof.
  revert i j s. induction fuel as [|fuel IH]; intros i j [|c t]; try done.
  rewrite !range_from_S. simpl. f_equal. apply IH.
Qed.

(** The index of an iteration is an index of the string. *)
Lemma range_from_index (fuel i : nat) (s : string) (j : nat) (r : Z) :
  (j, r) ∈ Go.range_from fuel i s → i ≤ j < i + Go.len s.
Proof.
  revert i s. induction fuel as [|fuel IH]; intros i [|c t];
    try (by intros ?%elem_of_nil).
  rewrite range_from_S, elem_of_cons.
  pose proof (Decode_size (String c t) ltac:(done)) as Hsz.
  intros [[= -> ->]|Hin]; [rewrite len_cons; lia|].
  apply IH in Hin. rewrite len_drop in Hin. lia.
Qed.

(** The iterations over a text are those over its first line, one for the
    line feed, and those over the rest. *)
Lemma range_from_app_LF (fuel : nat) (l rest : string) (i : nat) :
  Go.len l + 1 + Go.len rest ≤ fuel →
  Go.range_from fuel i (l +:+ String LF rest) =
    Go.range_from (Go.len l) i l
    ++ (i + Go.len l, 10%Z)
       :: Go.range_from (Go.len rest) (i + Go.len l + 1) rest.
Proof.
  revert l i. induction fuel as [|fuel IH]; intros l i Hf; [lia|].
  destruct l as [|c t].
  - rewrite GoFacts.app_empty_l, range_from_S, Decode_LF. simpl.
    rewrite Nat.add_0_r. f_equal. apply range_from_fuel; simpl in *; lia.
  - rewrite len_cons in *. rewrite range_from_S.
    rewrite GoFacts.app_cons, range_from_S.
    rewrite <- GoFacts.app_cons, Decode_cut by done.
    pose proof (Decode_size (String c t) ltac:(done)) as Hsz. rewrite len_cons in Hsz.
    destruct (Go.DecodeRuneInString (String c t)) as [r size]. simpl in *.
    f_equal. rewrite drop_app_le by (rewrite len_cons; lia).
    rewrite IH by (rewrite len_drop, len_cons; lia).
    rewrite len_drop, len_cons. f_equal.
    + apply range_from_fuel; rewrite len_drop, len_cons; lia.
    + f_equal; [f_equal; lia|]. f_equal. lia.
Qed.

End Utf8Facts.

(** ** The comment formatter *)

Lemma whitespace_only_app_LF (l rest : string) :
  whitespace_only (l +:+ String LF rest)
  = whitespace_only l && whitespace_only rest.
Proof.
  unfold whitespace_only, Go.range_string.
  rewrite Utf8Facts.range_from_app_LF
    by (rewrite GoFacts.len_app, Utf8Facts.len_cons; lia).
  rewrite fmap_app, fmap_cons, forallb_app.
  rewrite (Utf8Facts.range_from_runes (Go.len rest) (0 + Go.len l + 1) 0 rest).
  reflexivity.
Qed.

(** A text is white space only when each of its lines is. *)
Lemma whitespace_only_lines (text : string) :
  whitespace_only text = forallb whitespace_only (Go.Split text LF).
Proof.
  remember (Go.len text) as n eqn:Hn.
  revert text Hn. induction (lt_wf n) as [n _ IH]. intros text ->.
  destruct (GoFacts.Split_cases text LF) as [Hc|(p & k & -> & Hp)].
  - rewrite GoFacts.Split_no_sep by done. simpl. by rewrite andb_true_r.
  - rewrite GoFacts.Split_app_sep by done. simpl.
    rewrite whitespace_only_app_LF. f_equal.
    eapply IH; [|reflexivity].
    rewrite GoFacts.len_app, Utf8Facts.len_cons. lia.
Qed.

(** Trimming leaves nothing exactly when the string is white space only. *)
Lemma TrimLeftFunc_empty (s : string) :
  Go.TrimLeftFunc s Go.IsSpace = "" ↔ whitespace_only s = true.
Proof.
  unfold Go.TrimLeftFunc, Go.indexFunc, whitespace_only.
  destruct (find _ (Go.range_string s)) as [[i r]|] eqn:Hfind; simpl.
  - apply find_some in Hfind as [Hin Hr]. simpl in Hr.
    apply list_elem_of_In in Hin.
    pose proof (Utf8Facts.range_from_index _ _ _ _ _ Hin) as Hi.
    split.
    + intros Hd. apply (f_equal Go.len) in Hd.
      rewrite Utf8Facts.len_drop in Hd. simpl in Hd. lia.
    + intros Hall. rewrite forallb_forall in Hall.
      assert (Go.IsSpace r = true) as Hs.
      { apply Hall, list_elem_of_In, list_elem_of_fmap. by exists (i, r). }
      rewrite Hs in Hr. done.
  - split; [intros _|done]. apply forallb_forall. intros r Hin.
    apply list_elem_of_In, list_elem_of_fmap in Hin as ([i r'] & -> & Hin).
    apply list_elem_of_In in Hin.
    pose proof (find_none _ _ Hfind _ Hin) as Hr. simpl in *.
    by destruct (Go.IsSpace r').
Qed.

Lemma Count_drop (n : nat) (s : string) (sep : ascii) :
  Go.Count (Go.drop n s) sep ≤ Go.Count s sep.
Proof.
  revert s. induction n as [|n IH]; intros [|c s]; simpl; try lia.
  specialize (IH s). lia.
Qed.

(** Trimming a line adds no line feed. *)
Lemma Count_TrimLeftFunc (s : string) (f : Z → bool) (sep : ascii) :
  Go.Count s sep = 0 → Go.Count (Go.TrimLeftFunc s f) sep = 0.
Proof.
  intros Hs. unfold Go.TrimLeftFunc. destruct (Go.indexFunc s f false); [|done].
  pose proof (Count_drop n s sep). lia.
Qed.

Lemma Split_pieces (s : string) (sep : ascii) :
  Forall (λ piece, Go.Count piece sep = 0) (Go.Split s sep).
Proof.
  induction s as [|c s IH]; simpl; [by repeat constructor|].
  case_bool_decide as Hc; [by constructor|].
  destruct (Go.Split s sep) as [|piece pieces]; [by repeat constructor; simpl; rewrite bool_decide_eq_false_2|].
  inversion_clear IH as [|? ? Hp Hps]. constructor; [|done].
  simpl. by rewrite bool_decide_eq_false_2.
Qed.

Lemma forallb_pointwise {A : Type} (f g : A → bool) (l : list A) :
  (∀ x, f x = g x) → forallb f l = forallb g l.
Proof. intros Hfg. induction l as [|x l IH]; simpl; [done|]. by rewrite Hfg, IH. Qed.

(** The loop of [comment]. *)
Lemma foldl_comment_line (lines : list string) (output : string) (hasComment : bool) :
  foldl comment_line (output, hasComment) lines =
    (output +:+ comment_body lines,
     hasComment
     || negb (forallb (λ line, bool_decide (Go.TrimLeftFunc line Go.IsSpace = ""))
                lines)).
Proof.
  revert output hasComment. induction lines as [|line lines IH];
    intros output hasComment; simpl.
  - by rewrite GoFacts.app_empty_r, orb_false_r.
  - rewrite IH. f_equal.
    + by rewrite !GoFacts.app_assoc.
    + case_bool_decide as Hne; case_bool_decide as He; simpl; try done.
      by destruct hasComment.
Qed.

Lemma comment_body_cons (line : string) (lines : list string) :
  comment_body (line :: lines) =
    String LF (("// " +:+ Go.TrimLeftFunc line Go.IsSpace) +:+ comment_body lines).
Proof.
  rewrite GoFacts.app_assoc. reflexivity.
Qed.

Lemma Split_LF_cons (s : string) : Go.Split (String LF s) LF = "" :: Go.Split s LF.
Proof. reflexivity. Qed.

(** The lines of a comment block are the commented lines, behind an empty
    first line. *)
Lemma Split_comment_body (lines : list string) :
  Forall (λ line, Go.Count line LF = 0) lines →
  Go.Split (comment_body lines) LF =
    match lines with
    | [] => [""]
    | _ => "" :: map (λ line, "// " +:+ Go.TrimLeftFunc line Go.IsSpace) lines
    end.
Proof.
  induction 1 as [|line lines Hline Hlines IH]; [done|].
  assert (Go.Count ("// " +:+ Go.TrimLeftFunc line Go.IsSpace) LF = 0) as Hpiece.
  { rewrite GoFacts.Count_app, Count_TrimLeftFunc by done. reflexivity. }
  rewrite comment_body_cons, Split_LF_cons.
  f_equal. destruct lines as [|line' lines].
  - change (comment_body []) with "". rewrite GoFacts.app_empty_r.
    by rewrite GoFacts.Split_no_sep.
  - rewrite comment_body_cons in *. rewrite Split_LF_cons in IH.
    rewrite GoFacts.Split_app_sep by done.
    apply (f_equal (@List.tl string)) in IH. cbn [List.tl] in IH.
    by rewrite IH.
Qed.

(** C9. The comment formatter returns the empty string exactly for a text
    that is empty or white space only.  For every other text the result
    begins with a line feed, and its lines after it are the lines of the
    text, one for one, each behind the marker ["// "]. *)
Theorem comment_spec (text : string) :
  (comment text = "" ↔ text = "" ∨ whitespace_only text = true) ∧
  (¬ (text = "" ∨ whitespace_only text = true) →
   Go.HasPrefix (comment text) (String LF "") = true ∧
   Go.Split (comment text) LF =
     "" :: map (λ line, "// " +:+ Go.TrimLeftFunc line Go.IsSpace)
             (Go.Split text LF)).
Proof.
  assert (text = "" ∨ whitespace_only text = true ↔ whitespace_only text = true)
    as Hor by (split; [intros [->|]; done|by right]).
  rewrite Hor. clear Hor.
  assert (whitespace_only text
          = forallb (λ line, bool_decide (Go.TrimLeftFunc line Go.IsSpace = ""))
              (Go.Split text LF)) as Hws.
  { rewrite whitespace_only_lines. apply forallb_pointwise. intros line.
    apply eq_true_iff_eq. rewrite bool_decide_eq_true. symmetry.
    apply TrimLeftFunc_empty. }
  pose proof (GoFacts.Split_not_nil text LF) as Hnil.
  pose proof (Split_pieces text LF) as Hpieces.
  unfold comment.
  destruct (bool_decide (length (Go.Split text LF) = 1)
            && bool_decide (Go.Split text LF !! 0 = Some "")) eqn:Hone.
  - apply andb_true_iff in Hone as [H1%bool_decide_eq_true H2%bool_decide_eq_true].
    destruct (Go.Split text LF) as [|line [|? ?]]; try done.
    injection H2 as ->. rewrite Hws. by split.
  - rewrite foldl_comment_line, GoFacts.app_empty_l. simpl.
    rewrite <- Hws. destruct (whitespace_only text); simpl; [by split|].
    assert (∃ rest, comment_body (Go.Split text LF) = String LF rest) as [rest Hrest].
    { destruct (Go.Split text LF); [done|]. by eexists. }
    split; [rewrite Hrest; by split|]. intros _. split.
    + by rewrite Hrest.
    + rewrite Split_comment_body by done. by destruct (Go.Split text LF).
Qed.

(** ** The namespace index *)

Lemma buildIndex_app (before after : list Object) :
  buildIndex (before ++ after) =
    foldl (λ objnsmap obj, <[Name obj := Namespace obj]> objnsmap)
      (buildIndex before) after.
Proof. unfold buildIndex. apply foldl_app. Qed.

Lemma buildIndex_snoc (before : list Object) (obj : Object) :
  buildIndex (before ++ [obj]) = <[Name obj := Namespace obj]> (buildIndex before).
Proof. by rewrite buildIndex_app. Qed.

(** Objects of other names leave the entry of a name as it is. *)
Lemma foldl_insert_other (objs : list Object) (m : gmap string string) (k : string) :
  (∀ o, o ∈ objs → Name o ≠ k) →
  foldl (λ objnsmap obj, <[Name obj := Namespace obj]> objnsmap) m objs !! k
  = m !! k.
Proof.
  revert m. induction objs as [|o objs IH]; intros m Hne; [done|].
  simpl. rewrite IH by (intros o' Ho'; apply Hne; by right).
  apply lookup_insert_ne, Hne. by left.
Qed.

(** C10. When several objects share a name, the index maps the name to the
    namespace of the last of them in schema order: each assignment of the
    build pass overwrites the entry, and no step of the pass logs anything
    or ends the run. *)
Theorem buildIndex_last_wins (before after : list Object) (obj : Object) :
  (∀ o, o ∈ after → Name o ≠ Name obj) →
  buildIndex (before ++ obj :: after) !! Name obj = Some (Namespace obj) ∧
  ∀ (E : Externals) (apiDefFile : string) (started : list Frame) (w : World)
    (rest : list Object),
    let m := mkMachine (MainRange (before ++ obj :: after) rest) started w in
    log (world (main_step E apiDefFile m)) = log w ∧
    exited (world (main_step E apiDefFile m)) = exited w.
Proof.
  intros Hlast. split.
  - rewrite buildIndex_app. simpl. rewrite foldl_insert_other by done.
    apply lookup_insert_eq.
  - intros E apiDefFile started w rest m. subst m. by destruct rest.
Qed.

Lemma buildIndex_last_wins_witness :
  buildIndex
    ([mkObject "Event" "do" "" [] []; mkObject "Task" "mo" "" [] []]
     ++ mkObject "Event" "fault" "" [] [] :: [mkObject "Task" "mo" "" [] []])
    !! "Event" = Some "fault" ∧
  ∀ (E : Externals) (apiDefFile : string) (started : list Frame) (w : World)
    (rest : list Object),
    let m :=
      mkMachine
        (MainRange
           ([mkObject "Event" "do" "" [] []; mkObject "Task" "mo" "" [] []]
            ++ mkObject "Event" "fault" "" [] [] :: [mkObject "Task" "mo" "" [] []])
           rest) started w in
    log (world (main_step E apiDefFile m)) = log w ∧
    exited (world (main_step E apiDefFile m)) = exited w.
Proof.
  apply (buildIndex_last_wins
           [mkObject "Event" "do" "" [] []; mkObject "Task" "mo" "" [] []]
           [mkObject "Task" "mo" "" [] []]
           (mkObject "Event" "fault" "" [] [])).
  intros o Ho. apply list_elem_of_singleton in Ho. subst o. simpl. discriminate.
Defined.

(** ** [genCode] *)

Lemma ensure_dir_frame (E : Externals) (pkg : string) (w : World) :
  objnsmap (ensure_dir E pkg w) = objnsmap w ∧
  log (ensure_dir E pkg w) = log w ∧
  exited (ensure_dir E pkg w) = exited w.
Proof.
  unfold ensure_dir. destruct (exists_ E (fs w) pkg) as [ok err].
  by destruct (negb ok && bool_decide (err = None)).
Qed.

Lemma ensure_dir_fs (E : Externals) (pkg : string) (w : World) :
  files (fs (ensure_dir E pkg w)) = files (fs w) ∧
  dirs (fs w) ⊆ dirs (fs (ensure_dir E pkg w)) ∧
  dirs (fs (ensure_dir E pkg w)) ⊆ {[pkg]} ∪ dirs (fs w).
Proof.
  unfold ensure_dir. destruct (exists_ E (fs w) pkg) as [ok err].
  destruct (negb ok && bool_decide (err = None)); simpl; [|set_solver].
  destruct (is_dir _ _ && negb (taken _ _) && bool_decide (_ = None));
    set_solver.
Qed.

(** *** Paths and directories *)

Lemma dirname_join (dir name : string) :
  dirname name = None → dirname (dir +:+ "/" +:+ name) = Some dir.
Proof.
  intros Hname. induction dir as [|c dir IH].
  - change ("" +:+ "/" +:+ name) with (String "/" name).
    cbn [dirname]. by rewrite Hname.
  - rewrite GoFacts.app_cons. cbn [dirname]. by rewrite IH.
Qed.

Lemma parent_join (dir name : string) :
  dir ≠ "" → dirname name = None → parent (dir +:+ "/" +:+ name) = dir.
Proof.
  intros Hdir Hname. unfold parent. rewrite (dirname_join _ _ Hname).
  by destruct dir.
Qed.

Lemma is_dir_spec (f : FileSystem) (path : string) :
  is_dir f path = true ↔ path = "." ∨ path = "/" ∨ path ∈ dirs f.
Proof.
  unfold is_dir. rewrite !orb_true_iff, !bool_decide_eq_true. tauto.
Qed.

Lemma app_longer (s : string) (c : ascii) (t : string) : s +:+ String c t ≠ s.
Proof.
  induction s as [|a s IH]; [done|].
  rewrite GoFacts.app_cons. intros H. injection H as H. by apply IH.
Qed.

(** Behind [ensure_dir] the directory is there, when its parent was, no
    file is in its place, [exists] has not found it where it is not, and
    the system lets it be made. *)
Lemma ensure_dir_is_dir (E : Externals) (pkg : string) (w : World) :
  is_dir (fs w) (parent pkg) = true →
  files (fs w) !! pkg = None →
  (is_dir (fs w) pkg = false → exists_ E (fs w) pkg = (false, None)) →
  (taken (fs w) pkg = false → os_Mkdir_error E (fs w) pkg = None) →
  is_dir (fs (ensure_dir E pkg w)) pkg = true.
Proof.
  intros Hparent Hfile Hexists Hmkdir.
  destruct (is_dir (fs w) pkg) eqn:Hdir.
  - apply is_dir_spec in Hdir. apply is_dir_spec.
    destruct Hdir as [?|[?|Hdir]]; [by left|by right; left|].
    right; right. by apply (ensure_dir_fs E pkg w).
  - assert (taken (fs w) pkg = false) as Htaken.
    { unfold taken. by rewrite Hdir, Hfile. }
    unfold ensure_dir, os_Mkdir. rewrite (Hexists eq_refl). simpl.
    rewrite Hparent, Htaken, (Hmkdir Htaken). simpl.
    apply is_dir_spec. right; right. set_solver.
Qed.

(** *** The boilerplate as a source file *)

Lemma scan_app (m : Scan) (s t : string) :
  scan m (s +:+ t) =
    '(tokens, m) ← scan m s; '(more, m) ← scan m t; Some (tokens ++ more, m).
Proof.
  revert m. induction s as [|c s IH]; intros m.
  - change ("" +:+ t) with t. simpl. by destruct (scan m t) as [[? ?]|].
  - rewrite GoFacts.app_cons. cbn [scan].
    destruct (scan_byte m c) as [[tokens m1]|]; [|done]. simpl.
    rewrite IH. destruct (scan m1 s) as [[tokens' m2]|]; [|done]. simpl.
    destruct (scan m2 t) as [[tokens'' m3]|]; [|done]. simpl.
    by rewrite app_assoc.
Qed.

(** Behind a banner, the package clause and the imports [genCode] writes
    for each of the four namespaces are a source file that declares
    nothing. *)
Lemma boilerplate_declares_nothing (E : Externals) (ns : string) :
  ns ∈ ["mo"; "do"; "enum"; "fault"] →
  is_banner (headerTmpl E) →
  declares_nothing (boilerplate E ns) = true.
Proof.
  intros Hns Hbanner. unfold declares_nothing, boilerplate.
  rewrite scan_app, Hbanner.
  rewrite !elem_of_cons, elem_of_nil in Hns.
  destruct Hns as [->|[->|[->|[->|[]]]]]; vm_compute; reflexivity.
Qed.

(** A step of [genCode] reads [objnsmap] and never assigns it. *)
Lemma genCode_step_objnsmap (E : Externals) (f : Frame) (w : World) :
  objnsmap (genCode_step E f w).2 = objnsmap w.
Proof.
  unfold genCode_step. destruct (pc f) as [| | |[|obj rest]| |]; simpl; try done.
  - apply ensure_dir_frame.
  - by destruct (os_Create E (fs w) (file_of f)).
  - case_bool_decide; [done|].
    by destruct (template_Execute E (tmpl f) (objnsmap w) obj).
  - by destruct (format_Source E (data f)).
Qed.

Lemma genCode_run_exited (E : Externals) (fuel : nat) (f : Frame) (w : World) :
  exited w ≠ None → genCode_run E fuel f w = (f, w).
Proof.
  intros Hw. destruct fuel; [done|]. simpl.
  rewrite (bool_decide_eq_true_2 _ Hw). by rewrite orb_true_r.
Qed.

Lemma genCode_run_step (E : Externals) (fuel : nat) (f : Frame) (w : World) :
  finished f = false → exited w = None →
  genCode_run E (S fuel) f w =
    genCode_run E fuel (genCode_step E f w).1 (genCode_step E f w).2.
Proof.
  intros Hf Hw. simpl. rewrite Hf, bool_decide_eq_false_2 by (by rewrite Hw; intros []).
  simpl. by destruct (genCode_step E f w).
Qed.

(** The loop and the formatting that follows it, run from any position of
    the loop with enough fuel. *)
Lemma genCode_run_range (E : Externals) (rest : list Object) :
  ∀ (fuel : nat) (f : Frame) (w : World),
    pc f = AtRange rest → exited w = None → length rest + 2 ≤ fuel →
    match render E (tmpl f) (objnsmap w) (namespace f) rest (data f) with
    | LoopPanic msg =>
        (genCode_run E fuel f w).2 = go_panic msg w ∧
        finished (genCode_run E fuel f w).1 = false
    | LoopError err =>
        (genCode_run E fuel f w).2 = log_Fatal (err +:+ String LF "") w ∧
        finished (genCode_run E fuel f w).1 = false
    | LoopDone source =>
        match format_Source E source with
        | inr err =>
            (genCode_run E fuel f w).2 =
              log_Fatal (format_error (file_of f) err)
                (fd_Write (file_of f) source w) ∧
            finished (genCode_run E fuel f w).1 = false
        | inl fsource =>
            (genCode_run E fuel f w).2 = fd_Write (file_of f) fsource w ∧
            finished (genCode_run E fuel f w).1 = true
        end
    end.
Proof.
  induction rest as [|obj rest IH]; intros fuel f w Hpc Hw Hfuel.
  - destruct fuel as [|[|fuel]]; simpl in Hfuel; try lia.
    destruct f as [objs mp t ns p d]. simpl in Hpc. subst p.
    rewrite genCode_run_step by done.
    unfold genCode_step. cbn [pc goto goto_with fst snd].
    rewrite genCode_run_step by done.
    unfold genCode_step. cbn [pc goto goto_with fst snd data render].
    destruct (format_Source E d) as [fsource|err]; cbn [fst snd].
    + by destruct fuel.
    + by rewrite genCode_run_exited.
  - destruct fuel as [|fuel]; simpl in Hfuel; [lia|].
    destruct f as [objs mp t ns p d]. simpl in Hpc. subst p.
    rewrite genCode_run_step by done.
    unfold genCode_step. cbn [pc goto goto_with fst snd data render tmpl namespace].
    case_bool_decide as Hns; cbn [fst snd].
    + specialize (IH fuel (mkFrame objs mp t ns (AtRange rest) d) w).
      apply IH; [done|done|lia].
    + destruct (template_Execute E t (objnsmap w) obj) as [text|msg|err];
        cbn [fst snd].
      * specialize (IH fuel (mkFrame objs mp t ns (AtRange rest) (d +:+ text)) w).
        apply IH; [done|done|lia].
      * by rewrite genCode_run_exited.
      * by rewrite genCode_run_exited.
Qed.

Lemma genCode_run_AtMkdir (E : Externals) (fuel : nat) (objs : list Object)
    (mp t ns d : string) (w : World) :
  exited w = None →
  genCode_run E (S fuel) (mkFrame objs mp t ns AtMkdir d) w =
    genCode_run E fuel (mkFrame objs mp t ns AtCreate d)
      (ensure_dir E (mp +:+ "/" +:+ ns) w).
Proof. intros Hw. by rewrite genCode_run_step. Qed.

Lemma genCode_run_AtCreate (E : Externals) (fuel : nat) (objs : list Object)
    (mp t ns d : string) (w : World) :
  exited w = None →
  genCode_run E (S fuel) (mkFrame objs mp t ns AtCreate d) w =
    match os_Create E (fs w) ((mp +:+ "/" +:+ ns) +:+ "/" +:+ ns +:+ ".go") with
    | Some err =>
        (mkFrame objs mp t ns AtCreate d, log_Fatal (err +:+ String LF "") w)
    | None =>
        genCode_run E fuel (mkFrame objs mp t ns AtHeader d)
          (create_file ((mp +:+ "/" +:+ ns) +:+ "/" +:+ ns +:+ ".go") w)
    end.
Proof.
  intros Hw. rewrite genCode_run_step by done.
  unfold genCode_step. cbn [pc]. unfold file_of, pkg_of. cbn [mainPkg namespace].
  destruct (os_Create E (fs w) _); cbn [fst snd]; [|done].
  by rewrite genCode_run_exited.
Qed.

Lemma genCode_run_AtHeader (E : Externals) (fuel : nat) (objs : list Object)
    (mp t ns d : string) (w : World) :
  exited w = None →
  genCode_run E (S fuel) (mkFrame objs mp t ns AtHeader d) w =
    genCode_run E fuel (mkFrame objs mp t ns (AtRange objs) (boilerplate E ns)) w.
Proof. intros Hw. by rewrite genCode_run_step. Qed.

(** [genCode] run alone leaves the world that [genCode_world] spells out,
    and returns unless the process has exited. *)
Lemma genCode_genCode_world (E : Externals) (objs : list Object)
    (mp t ns : string) (w : World) :
  exited w = None →
  (genCode E objs mp t ns w).2
  = genCode_world E objs mp t ns w ∧
  (finished (genCode E objs mp t ns w).1 = true ↔
   exited (genCode_world E objs mp t ns w) = None).
Proof.
  intros Hw. unfold genCode, genCode_world, call_genCode.
  replace (length objs + 5) with (S (S (S (length objs + 2)))) by lia.
  rewrite genCode_run_AtMkdir by done.
  destruct (ensure_dir_frame E (mp +:+ "/" +:+ ns) w)
    as (Hidx & Hlog & Hex).
  rewrite genCode_run_AtCreate by congruence.
  set (pkg := mp +:+ "/" +:+ ns) in *.
  set (w1 := ensure_dir E pkg w) in *.
  set (file := pkg +:+ "/" +:+ ns +:+ ".go").
  destruct (os_Create E (fs w1) file) as [err|] eqn:Hcreate.
  { simpl. split; [done|]. split; intros H; discriminate H. }
  rewrite genCode_run_AtHeader by (simpl; congruence).
  pose proof (genCode_run_range E objs (length objs + 2)
                (mkFrame objs mp t ns (AtRange objs)
                   (boilerplate E ns))
                (create_file file w1) eq_refl) as Hrun.
  cbn [tmpl namespace data] in Hrun.
  change (file_of (mkFrame objs mp t ns (AtRange objs)
                     (boilerplate E ns))) with file in Hrun.
  specialize (Hrun ltac:(simpl; congruence) ltac:(lia)).
  destruct (render E t (objnsmap (create_file file w1)) ns objs
              (boilerplate E ns)) as [source|msg|err].
  - destruct (format_Source E source) as [fsource|err];
      destruct Hrun as [-> ->]; simpl; (split; [done|]).
    + split; [congruence|done].
    + split; intros H; discriminate H.
  - destruct Hrun as [-> ->]. simpl. split; [done|]. split; intros H; discriminate H.
  - destruct Hrun as [-> ->]. simpl. split; [done|]. split; intros H; discriminate H.
Qed.

Lemma render_no_objects (E : Externals) (t : string) (idx : gmap string string)
    (ns : string) (objs : list Object) (d : string) :
  (∀ o, o ∈ objs → Namespace o ≠ ns) →
  render E t idx ns objs d = LoopDone d.
Proof.
  induction objs as [|o objs IH]; intros Hns; [done|]. simpl.
  rewrite bool_decide_eq_true_2 by (apply Hns; by left).
  apply IH. intros o' Ho'. apply Hns. by right.
Qed.

(** Past the loop, the world [genCode] leaves is decided by
    [format.Source]. *)
Lemma genCode_world_rendered (E : Externals) (objs : list Object)
    (mp t ns : string) (w : World) (source : string) :
  os_Create E (fs (ensure_dir E (mp +:+ "/" +:+ ns) w))
    (file_of (call_genCode objs mp t ns)) = None →
  render E t (objnsmap w) ns objs (boilerplate E ns) = LoopDone source →
  genCode_world E objs mp t ns w =
    match format_Source E source with
    | inr err =>
        log_Fatal (format_error (file_of (call_genCode objs mp t ns)) err)
          (fd_Write (file_of (call_genCode objs mp t ns)) source
             (create_file (file_of (call_genCode objs mp t ns))
                (ensure_dir E (mp +:+ "/" +:+ ns) w)))
    | inl fsource =>
        fd_Write (file_of (call_genCode objs mp t ns)) fsource
          (create_file (file_of (call_genCode objs mp t ns))
             (ensure_dir E (mp +:+ "/" +:+ ns) w))
    end.
Proof.
  intros Hcreate Hrender.
  destruct (ensure_dir_frame E (mp +:+ "/" +:+ ns) w) as (Hidx & _ & _).
  unfold genCode_world.
  change (file_of (call_genCode objs mp t ns))
    with ((mp +:+ "/" +:+ ns) +:+ "/" +:+ ns +:+ ".go") in *.
  rewrite Hcreate. cbn [objnsmap create_file set_fs].
  by rewrite Hidx, Hrender.
Qed.

(** C6. When [format.Source] rejects the rendered buffer, [genCode] writes
    the buffer as it is to the file of the namespace and then ends the run
    with a diagnostic that names the file and the formatting error; when
    the buffer is accepted, what is written is the formatted text. *)
Theorem genCode_format (E : Externals) (objs : list Object) (mp t ns : string)
    (w : World) (source : string) :
  exited w = None →
  os_Create E (fs (ensure_dir E (mp +:+ "/" +:+ ns) w))
    (file_of (call_genCode objs mp t ns)) = None →
  render E t (objnsmap w) ns objs (boilerplate E ns) = LoopDone source →
  match format_Source E source with
  | inr err =>
      (genCode E objs mp t ns w).2 =
        log_Fatal
          ("There are errors in the generated source for "
           +:+ file_of (call_genCode objs mp t ns) +:+ ": " +:+ err
           +:+ String LF "")
          (fd_Write (file_of (call_genCode objs mp t ns)) source
             (create_file (file_of (call_genCode objs mp t ns))
                (ensure_dir E (mp +:+ "/" +:+ ns) w))) ∧
      files (fs (genCode E objs mp t ns w).2)
        !! file_of (call_genCode objs mp t ns) = Some source ∧
      log (genCode E objs mp t ns w).2 =
        log w ++ ["There are errors in the generated source for "
                  +:+ file_of (call_genCode objs mp t ns) +:+ ": " +:+ err
                  +:+ String LF ""] ∧
      exited (genCode E objs mp t ns w).2 = Some 1%Z ∧
      finished (genCode E objs mp t ns w).1 = false
  | inl fsource =>
      (genCode E objs mp t ns w).2 =
        fd_Write (file_of (call_genCode objs mp t ns)) fsource
          (create_file (file_of (call_genCode objs mp t ns))
             (ensure_dir E (mp +:+ "/" +:+ ns) w)) ∧
      files (fs (genCode E objs mp t ns w).2)
        !! file_of (call_genCode objs mp t ns) = Some fsource ∧
      log (genCode E objs mp t ns w).2 = log w ∧
      exited (genCode E objs mp t ns w).2 = None ∧
      finished (genCode E objs mp t ns w).1 = true
  end.
Proof.
  intros Hw Hcreate Hrender.
  destruct (genCode_genCode_world E objs mp t ns w Hw) as [Hworld Hfin].
  destruct (ensure_dir_frame E (mp +:+ "/" +:+ ns) w) as (Hidx & Hlog & Hex).
  rewrite (genCode_world_rendered E objs mp t ns w source Hcreate Hrender)
    in Hworld, Hfin.
  destruct (format_Source E source) as [fsource|err]; rewrite Hworld.
  - repeat split.
    + simpl. apply lookup_insert_eq.
    + simpl. congruence.
    + simpl. congruence.
    + apply Hfin. simpl. congruence.
  - repeat split.
    + simpl. apply lookup_insert_eq.
    + simpl. by rewrite Hlog.
    + destruct (finished (genCode E objs mp t ns w).1) eqn:Hf; [|done].
      destruct Hfin as [Hfin _]. specialize (Hfin eq_refl). discriminate Hfin.
Qed.

Lemma genCode_format_witness :
  match format_Source (scenario false)
          (boilerplate (scenario false) "do"
           +:+ "type HostSystem struct {}" +:+ String LF "") with
  | inr err =>
      (genCode (scenario false) scenario_objects "./vim" "do template" "do"
         (fresh_world (mkFS ∅ ∅))).2 =
        log_Fatal
          ("There are errors in the generated source for "
           +:+ file_of (call_genCode scenario_objects "./vim" "do template" "do")
           +:+ ": " +:+ err +:+ String LF "")
          (fd_Write (file_of (call_genCode scenario_objects "./vim" "do template" "do"))
             (boilerplate (scenario false) "do"
              +:+ "type HostSystem struct {}" +:+ String LF "")
             (create_file
                (file_of (call_genCode scenario_objects "./vim" "do template" "do"))
                (ensure_dir (scenario false) ("./vim" +:+ "/" +:+ "do")
                   (fresh_world (mkFS ∅ ∅))))) ∧
      files (fs (genCode (scenario false) scenario_objects "./vim" "do template" "do"
                   (fresh_world (mkFS ∅ ∅))).2)
        !! file_of (call_genCode scenario_objects "./vim" "do template" "do")
      = Some (boilerplate (scenario false) "do"
              +:+ "type HostSystem struct {}" +:+ String LF "") ∧
      log (genCode (scenario false) scenario_objects "./vim" "do template" "do"
             (fresh_world (mkFS ∅ ∅))).2 =
        log (fresh_world (mkFS ∅ ∅))
        ++ ["There are errors in the generated source for "
            +:+ file_of (call_genCode scenario_objects "./vim" "do template" "do")
            +:+ ": " +:+ err +:+ String LF ""] ∧
      exited (genCode (scenario false) scenario_objects "./vim" "do template" "do"
                (fresh_world (mkFS ∅ ∅))).2 = Some 1%Z ∧
      finished (genCode (scenario false) scenario_objects "./vim" "do template" "do"
                  (fresh_world (mkFS ∅ ∅))).1 = false
  | inl fsource =>
      (genCode (scenario false) scenario_objects "./vim" "do template" "do"
         (fresh_world (mkFS ∅ ∅))).2 =
        fd_Write (file_of (call_genCode scenario_objects "./vim" "do template" "do"))
          fsource
          (create_file
             (file_of (call_genCode scenario_objects "./vim" "do template" "do"))
             (ensure_dir (scenario false) ("./vim" +:+ "/" +:+ "do")
                (fresh_world (mkFS ∅ ∅)))) ∧
      files (fs (genCode (scenario false) scenario_objects "./vim" "do template" "do"
                   (fresh_world (mkFS ∅ ∅))).2)
        !! file_of (call_genCode scenario_objects "./vim" "do template" "do")
      = Some fsource ∧
      log (genCode (scenario false) scenario_objects "./vim" "do template" "do"
             (fresh_world (mkFS ∅ ∅))).2 = log (fresh_world (mkFS ∅ ∅)) ∧
      exited (genCode (scenario false) scenario_objects "./vim" "do template" "do"
                (fresh_world (mkFS ∅ ∅))).2 = None ∧
      finished (genCode (scenario false) scenario_objects "./vim" "do template" "do"
                  (fresh_world (mkFS ∅ ∅))).1 = true
  end.
Proof.
  apply (genCode_format (scenario false) scenario_objects "./vim" "do template"
           "do" (fresh_world (mkFS ∅ ∅))
           (boilerplate (scenario false) "do"
            +:+ "type HostSystem struct {}" +:+ String LF "")).
  - reflexivity.
  - reflexivity.
  - vm_compute. reflexivity.
Defined.

(** C8. For each of the four namespaces, [genCode] on objects none of
    which is of the namespace is no error.  Where the process is running,
    the output root is a directory, no file is in the place of the
    directory of the namespace and no directory in the place of its file,
    [exists] does not find the directory where it is not, the system
    refuses no creation under an existing directory, the header is a
    banner of comments, and [format.Source] takes the source files that
    declare nothing: no template is executed, the buffer is the
    boilerplate of the namespace (the header, the package clause and the
    imports of the namespace) and nothing else, this buffer is a source
    file that declares nothing and [format.Source] succeeds on it, the
    run is the run on the empty list of objects, and [genCode] returns
    with the directory of the namespace made, the formatted boilerplate in
    the file and nothing logged. *)
Theorem genCode_no_objects (E : Externals) (objs : list Object) (mp t ns : string)
    (w : World) :
  ns ∈ ["mo"; "do"; "enum"; "fault"] →
  (∀ o, o ∈ objs → Namespace o ≠ ns) →
  exited w = None →
  mp ≠ "" →
  is_dir (fs w) mp = true →
  files (fs w) !! (mp +:+ "/" +:+ ns) = None →
  is_dir (fs w) (file_of (call_genCode objs mp t ns)) = false →
  (is_dir (fs w) (mp +:+ "/" +:+ ns) = false →
   exists_ E (fs w) (mp +:+ "/" +:+ ns) = (false, None)) →
  writable E →
  is_banner (headerTmpl E) →
  (∀ src, declares_nothing src = true →
          ∃ fsource, format_Source E src = inl fsource) →
  ∃ fsource,
    render E t (objnsmap w) ns objs (boilerplate E ns)
    = LoopDone (boilerplate E ns) ∧
    declares_nothing (boilerplate E ns) = true ∧
    format_Source E (boilerplate E ns) = inl fsource ∧
    genCode_world E objs mp t ns w = genCode_world E [] mp t ns w ∧
    finished (genCode E objs mp t ns w).1 = true ∧
    exited (genCode E objs mp t ns w).2 = None ∧
    log (genCode E objs mp t ns w).2 = log w ∧
    is_dir (fs (genCode E objs mp t ns w).2) (mp +:+ "/" +:+ ns) = true ∧
    files (fs (genCode E objs mp t ns w).2)
      !! file_of (call_genCode objs mp t ns) = Some fsource ∧
    boilerplate E "mo"
    = headerTmpl E +:+ ("package mo" +:+ String LF "") +:+ import_mo ∧
    boilerplate E "do"
    = headerTmpl E +:+ ("package do" +:+ String LF "") +:+ import_do ∧
    boilerplate E "enum"
    = headerTmpl E +:+ ("package enum" +:+ String LF "") +:+ "" ∧
    boilerplate E "fault"
    = headerTmpl E +:+ ("package fault" +:+ String LF "") +:+ import_fault.
Proof.
  intros Hns Hobjs Hw Hmp Hroot Hfile Hnodir Hexists [Hmkdir Hcreate] Hbanner
    Hformat.
  assert (dirname ns = None ∧ dirname (ns +:+ ".go") = None) as [Hname Hgo].
  { rewrite !elem_of_cons, elem_of_nil in Hns.
    by destruct Hns as [->|[->|[->|[->|[]]]]]. }
  pose proof (boilerplate_declares_nothing E ns Hns Hbanner) as Hparse.
  destruct (Hformat _ Hparse) as [fsource Hfsource]. exists fsource.
  change (file_of (call_genCode objs mp t ns))
    with ((mp +:+ "/" +:+ ns) +:+ "/" +:+ ns +:+ ".go") in *.
  set (pkg := mp +:+ "/" +:+ ns) in *.
  assert (is_dir (fs (ensure_dir E pkg w)) pkg = true) as Hpkg.
  { apply ensure_dir_is_dir; try done.
    - unfold pkg. by rewrite parent_join.
    - apply Hmkdir. unfold pkg. by rewrite parent_join. }
  assert (os_Create E (fs (ensure_dir E pkg w)) (pkg +:+ "/" +:+ ns +:+ ".go")
          = None) as Hcreated.
  { apply Hcreate.
    - rewrite parent_join; [done| |done]. unfold pkg. by destruct mp.
    - apply not_true_is_false. intros Hd. apply not_true_iff_false in Hnodir.
      apply Hnodir. apply is_dir_spec in Hd. apply is_dir_spec.
      destruct Hd as [?|[?|Hd]]; [by left|by right; left|].
      right; right. apply (ensure_dir_fs E pkg w) in Hd.
      apply elem_of_union in Hd as [Hd|Hd]; [|done].
      apply elem_of_singleton in Hd. by apply app_longer in Hd. }
  pose proof (render_no_objects E t (objnsmap w) ns objs (boilerplate E ns) Hobjs)
    as Hrender.
  destruct (genCode_genCode_world E objs mp t ns w Hw) as [Hworld Hfin].
  destruct (ensure_dir_frame E pkg w) as (Hidx & Hlog & Hex).
  rewrite (genCode_world_rendered E objs mp t ns w _ Hcreated Hrender), Hfsource
    in Hworld, Hfin.
  rewrite Hworld.
  split; [done|]. split; [done|]. split; [done|]. split.
  { unfold genCode_world. fold pkg. rewrite Hcreated.
    by rewrite !render_no_objects by (done || by intros ? ?%elem_of_nil). }
  cbn [exited log fs files dirs fd_Write create_file set_fs] in *.
  split; [apply Hfin; exact (eq_trans Hex Hw)|].
  split; [exact (eq_trans Hex Hw)|]. split; [exact Hlog|].
  split; [exact Hpkg|]. split; [apply lookup_insert_eq|].
  done.
Qed.

Lemma genCode_no_objects_witness :
  ∃ fsource,
    render scenario_disk "enum template" (objnsmap scenario_root) "enum"
      scenario_objects (boilerplate scenario_disk "enum")
    = LoopDone (boilerplate scenario_disk "enum") ∧
    declares_nothing (boilerplate scenario_disk "enum") = true ∧
    format_Source scenario_disk (boilerplate scenario_disk "enum")
    = inl fsource ∧
    genCode_world scenario_disk scenario_objects "./vim" "enum template" "enum"
      scenario_root
    = genCode_world scenario_disk [] "./vim" "enum template" "enum"
        scenario_root ∧
    finished (genCode scenario_disk scenario_objects "./vim" "enum template"
                "enum" scenario_root).1 = true ∧
    exited (genCode scenario_disk scenario_objects "./vim" "enum template"
              "enum" scenario_root).2 = None ∧
    log (genCode scenario_disk scenario_objects "./vim" "enum template"
           "enum" scenario_root).2 = log scenario_root ∧
    is_dir (fs (genCode scenario_disk scenario_objects "./vim" "enum template"
                  "enum" scenario_root).2) ("./vim" +:+ "/" +:+ "enum") = true ∧
    files (fs (genCode scenario_disk scenario_objects "./vim" "enum template"
                 "enum" scenario_root).2)
      !! file_of (call_genCode scenario_objects "./vim" "enum template" "enum")
    = Some fsource ∧
    boilerplate scenario_disk "mo"
    = headerTmpl scenario_disk +:+ ("package mo" +:+ String LF "")
      +:+ import_mo ∧
    boilerplate scenario_disk "do"
    = headerTmpl scenario_disk +:+ ("package do" +:+ String LF "")
      +:+ import_do ∧
    boilerplate scenario_disk "enum"
    = headerTmpl scenario_disk +:+ ("package enum" +:+ String LF "") +:+ "" ∧
    boilerplate scenario_disk "fault"
    = headerTmpl scenario_disk +:+ ("package fault" +:+ String LF "")
      +:+ import_fault.
Proof.
  apply (genCode_no_objects scenario_disk scenario_objects "./vim"
           "enum template" "enum" scenario_root).
  - refine (bool_decide_unpack _ _). vm_compute. exact I.
  - intros o Ho. unfold scenario_objects in Ho.
    apply elem_of_cons in Ho as [->|Ho]; [discriminate|].
    apply list_elem_of_singleton in Ho as ->. discriminate.
  - reflexivity.
  - discriminate.
  - vm_compute. reflexivity.
  - vm_compute. reflexivity.
  - vm_compute. reflexivity.
  - intros _. vm_compute. reflexivity.
  - split; intros f path Hparent Hfree; [reflexivity|].
    simpl. by rewrite Hparent, Hfree.
  - vm_compute. reflexivity.
  - intros src Hsrc. simpl. rewrite Hsrc. by eexists.
Defined.

(** ** [generate] *)

Lemma main_step_inv (E : Externals) (apiDefFile : string) (m : Machine) :
  generate_inv m → generate_inv (main_step E apiDefFile m).
Proof.
  unfold generate_inv, main_step. destruct m as [p started w]. simpl.
  destruct p as [|apiDef|objs|objs [|obj rest]|objs|objs k|objs|objs]; simpl.
  - by destruct (ioutil_ReadFile E apiDefFile).
  - by destruct (json_Unmarshal E apiDef).
  - intros ->. split; [done|]. by exists [].
  - intros (-> & passed & -> & Hidx). split; [done|].
    by rewrite app_nil_r.
  - intros (-> & passed & -> & Hidx). split; [done|].
    exists (passed ++ [obj]). split; [by rewrite <- app_assoc|].
    by rewrite buildIndex_snoc, Hidx.
  - by intros [_ ?].
  - intros Hidx. by destruct (goroutines E !! k) as [[? ?]|].
  - intros Hidx. by destruct (forallb finished started).
  - done.
Qed.

Lemma step_inv (E : Externals) (apiDefFile : string) (m m' : Machine) :
  step E apiDefFile m m' → generate_inv m → generate_inv m'.
Proof.
  intros [m0 Hex|m0 i f f' w' Hex Hi Hf Hstep].
  - apply main_step_inv.
  - pose proof (genCode_step_objnsmap E f (world m0)) as Hidx.
    rewrite Hstep in Hidx. simpl in Hidx.
    unfold generate_inv. destruct m0 as [p started w]. simpl in *.
    assert (started ≠ []) as Hne by (by intros ->).
    destruct p as [|apiDef|objs|objs rest|objs|objs k|objs|objs];
      try (intros Hnil; by destruct Hne);
      try (intros [Hnil _]; by destruct Hne);
      intros Hinv; congruence.
Qed.

Lemma reachable_inv (E : Externals) (apiDefFile : string) (f : FileSystem)
    (m : Machine) :
  reachable E apiDefFile f m → generate_inv m.
Proof.
  unfold reachable. revert m. apply (rtc_ind_r generate_inv); [done|].
  intros y z _ Hstep Hy. by eapply step_inv.
Qed.

Lemma step_past_build (E : Externals) (apiDefFile : string) (m m' : Machine)
    (objs : list Object) :
  step E apiDefFile m m' → past_build (main m) = Some objs →
  past_build (main m') = Some objs ∧ objnsmap (world m') = objnsmap (world m).
Proof.
  intros [m0 Hex|m0 i f f' w' Hex Hi Hf Hstep] Hpast.
  - unfold main_step. destruct m0 as [p started w]. simpl in *.
    destruct p as [|apiDef|objs'|objs' rest|objs'|objs' k|objs'|objs'];
      try discriminate Hpast; simpl.
    + done.
    + by destruct (goroutines E !! k) as [[? ?]|].
    + by destruct (forallb finished started).
    + done.
  - simpl. split; [done|].
    pose proof (genCode_step_objnsmap E f (world m0)) as Hidx.
    by rewrite Hstep in Hidx.
Qed.

(** C7. In every run of [generate], a goroutine is started only when the
    loop that builds [objnsmap] is over; from then on the map is the index
    of all the objects, built by one pass over them in order, and no step
    of the body of [generate] or of a goroutine changes it. *)
Theorem objnsmap_frozen (E : Externals) (apiDefFile : string) (f : FileSystem)
    (m : Machine) :
  reachable E apiDefFile f m →
  (tasks m ≠ [] → is_Some (past_build (main m))) ∧
  (∀ objs, past_build (main m) = Some objs →
     objnsmap (world m) = buildIndex objs ∧
     ∀ m', step E apiDefFile m m' →
       past_build (main m') = Some objs ∧
       objnsmap (world m') = objnsmap (world m)) ∧
  (∀ (g : Frame) (w : World), objnsmap (genCode_step E g w).2 = objnsmap w).
Proof.
  intros Hrun. apply reachable_inv in Hrun. unfold generate_inv in Hrun.
  split; [|split].
  - intros Hne.
    destruct (main m); simpl; try (by destruct Hne);
      try (by destruct Hne; apply Hrun); by eexists.
  - intros objs Hpast. split.
    + destruct (main m); simpl in Hpast; try discriminate Hpast;
        injection Hpast as ->; [by destruct Hrun|done..].
    + intros m' Hstep. by eapply step_past_build.
  - apply genCode_step_objnsmap.
Qed.

Lemma objnsmap_frozen_witness :
  (tasks scenario_run ≠ [] → is_Some (past_build (main scenario_run))) ∧
  (∀ objs, past_build (main scenario_run) = Some objs →
     objnsmap (world scenario_run) = buildIndex objs ∧
     ∀ m', step (scenario true) "api.json" scenario_run m' →
       past_build (main m') = Some objs ∧
       objnsmap (world m') = objnsmap (world scenario_run)) ∧
  (∀ (g : Frame) (w : World),
     objnsmap (genCode_step (scenario true) g w).2 = objnsmap w).
Proof.
  apply (objnsmap_frozen (scenario true) "api.json" (mkFS ∅ ∅) scenario_run).
  unfold reachable, scenario_run. cbn [Nat.iter nat_rect].
  do 8 (eapply rtc_r; [|apply step_main; reflexivity]).
  apply rtc_refl.
Defined.

(** * Further properties *)

(** ** The escaper, continued *)

(** X1. What the escaper returns is never a reserved word. *)
Theorem replaceReservedWords_safe (identifier : string) :
  replaceReservedWords identifier ∉ dom reservedWords.
Proof.
  apply not_elem_of_dom.
  destruct (reservedWords !! identifier) as [v|] eqn:Hk.
  - pose proof Hk as Hin. apply reservedWords_lookup in Hin.
    apply reservedWords_entry_shape in Hin as (Hv & _ & Hnone).
    by rewrite (replaceReservedWords_hit _ _ Hk), <- Hv.
  - by rewrite (replaceReservedWords_miss _ Hk).
Qed.

(** X2. The escaper is not injective: a reserved word and the same word
    with the suffix ["_"] are two identifiers with one escaped form. *)
Theorem replaceReservedWords_collision (identifier : string) :
  identifier ∈ dom reservedWords →
  identifier +:+ "_" ≠ identifier ∧
  replaceReservedWords (identifier +:+ "_") = replaceReservedWords identifier.
Proof.
  intros [v Hk]%elem_of_dom. split.
  - intros Heq. apply (f_equal Go.len) in Heq.
    rewrite GoFacts.len_app in Heq. simpl in Heq. lia.
  - pose proof Hk as Hin. apply reservedWords_lookup in Hin.
    apply reservedWords_entry_shape in Hin as (Hv & _ & Hnone).
    rewrite (replaceReservedWords_hit _ _ Hk). rewrite <- Hv.
    by apply replaceReservedWords_miss.
Qed.

Lemma replaceReservedWords_collision_witness :
  "range" +:+ "_" ≠ "range" ∧
  replaceReservedWords ("range" +:+ "_") = replaceReservedWords "range".
Proof.
  apply (replaceReservedWords_collision "range").
  apply elem_of_dom. exists "range_". reflexivity.
Defined.

(** ** The type mapper, continued *)

Lemma length_Split (s : string) (sep : ascii) :
  length (Go.Split s sep) = S (Go.Count s sep).
Proof.
  induction s as [|c s IH]; [done|]. simpl.
  case_bool_decide; simpl; [by rewrite IH|].
  destruct (Go.Split s sep); simpl in *; lia.
Qed.

Lemma Split_head (s : string) (sep : ascii) :
  ∃ piece pieces, Go.Split s sep = piece :: pieces.
Proof.
  pose proof (GoFacts.Split_not_nil s sep).
  destruct (Go.Split s sep) as [|piece pieces]; [done|]. by eexists _, _.
Qed.

(** X3. The local name [stripns] returns holds no colon, so stripping it
    again changes nothing. *)
Theorem stripns_idempotent (xsdType : string) :
  Go.Count (stripns xsdType) ":" = 0 ∧
  stripns (stripns xsdType) = stripns xsdType.
Proof.
  assert (Go.Count (stripns xsdType) ":" = 0) as Hc;
    [|split; [done|by apply stripns_local]].
  unfold stripns. pose proof (Split_pieces xsdType ":") as Hpieces.
  destruct (Split_head xsdType ":") as (piece & pieces & Hsplit).
  rewrite Hsplit in *. inversion_clear Hpieces as [|? ? Hp Hps].
  case_bool_decide as Hlen; simpl; [|done].
  destruct pieces as [|piece' pieces]; [done|].
  by inversion_clear Hps.
Qed.

(** X4. A token with two colons or more is mapped by its first piece: what
    follows the first colon is dropped, where a token with one colon is
    mapped by what follows it. *)
Theorem stripns_three_pieces (first rest : string) :
  Go.Count first ":" = 0 → 1 ≤ Go.Count rest ":" →
  stripns (first +:+ ":" +:+ rest) = first ∧
  (first ≠ "" → toGoType (first +:+ ":" +:+ rest) = toGoType first).
Proof.
  intros Hfirst Hrest.
  assert (stripns (first +:+ ":" +:+ rest) = first) as Hstrip.
  { unfold stripns. change (":" +:+ rest) with (String ":" rest).
    rewrite GoFacts.Split_app_sep by done. simpl.
    rewrite bool_decide_eq_false_2; [done|].
    rewrite length_Split. lia. }
  split; [done|]. intros Hne.
  rewrite !toGoType_stripns by (done || apply GoFacts.app_not_empty).
  cbv zeta. by rewrite Hstrip, stripns_local.
Qed.

Lemma stripns_three_pieces_witness :
  stripns ("a" +:+ ":" +:+ "b:int") = "a" ∧
  ("a" ≠ "" → toGoType ("a" +:+ ":" +:+ "b:int") = toGoType "a").
Proof. apply (stripns_three_pieces "a" "b:int"); simpl; lia. Defined.

(** X5. Only the empty token maps to the empty type. *)
Theorem toGoType_empty (xsdType : string) :
  toGoType xsdType = "" ↔ xsdType = "".
Proof.
  split; [|by intros ->].
  intros Hgo. destruct (decide (xsdType = "")) as [|Hne]; [done|]. exfalso.
  rewrite toGoType_stripns in Hgo by done. cbv zeta in Hgo.
  case_bool_decide as Hv; [done|].
  destruct (Go.HasSuffix _ _); [destruct (Go.has _ _)|]; discriminate Hgo.
Qed.

(** X6. The prefix before the colon never matters: a token with one colon
    maps as its local name does, whatever the local name is.  An empty
    local name is the exception: it maps to a reference to nothing, where
    the empty token maps to the empty type. *)
Theorem toGoType_prefix (prefix name : string) :
  Go.Count prefix ":" = 0 → Go.Count name ":" = 0 →
  (name ≠ "" → toGoType (prefix +:+ ":" +:+ name) = toGoType name) ∧
  toGoType (prefix +:+ ":") = "*".
Proof.
  intros Hp Hn. split.
  - intros Hne.
    rewrite !toGoType_stripns by (done || apply GoFacts.app_not_empty).
    cbv zeta. by rewrite stripns_qualified, stripns_local.
  - rewrite toGoType_stripns by apply GoFacts.app_not_empty. cbv zeta.
    change (prefix +:+ ":") with (prefix +:+ ":" +:+ "").
    by rewrite stripns_qualified.
Qed.

Lemma toGoType_prefix_witness :
  ("HostSystem[]" ≠ "" →
   toGoType ("vim25" +:+ ":" +:+ "HostSystem[]") = toGoType "HostSystem[]") ∧
  toGoType ("vim25" +:+ ":") = "*".
Proof. apply (toGoType_prefix "vim25" "HostSystem[]"); reflexivity. Defined.

(** X7. A name that is not in the primitive table maps to a reference to
    it, and its sequence to a sequence of references. *)
Theorem toGoType_composite (name : string) :
  Go.Count name ":" = 0 → name ≠ "" →
  xsd2GoTypes !! name = None → Go.HasSuffix name "[]" = false →
  toGoType name = "*" +:+ name ∧
  toGoType (name +:+ "[]") = "[]*" +:+ name.
Proof.
  intros Hc Hne Hname Hsuffix. split; [|by apply toGoType_array_of_composite].
  rewrite toGoType_stripns by done. cbv zeta.
  rewrite stripns_local by done. unfold Go.index. rewrite Hname, Hsuffix.
  done.
Qed.

Lemma toGoType_composite_witness :
  toGoType "HostSystem" = "*" +:+ "HostSystem" ∧
  toGoType ("HostSystem" +:+ "[]") = "[]*" +:+ "HostSystem".
Proof. apply (toGoType_composite "HostSystem"); reflexivity || discriminate. Defined.

(** ** Resolving a type reference, continued *)

Lemma lookUpNamespace_star (objnsmap : gmap string string) (t currentNs : string) :
  lookUpNamespace objnsmap (String "*" t) currentNs
  = Some (resolved objnsmap "*" t currentNs).
Proof.
  rewrite <- lookUpNamespace_tail. by slices.
Qed.

Lemma lookUpNamespace_short (objnsmap : gmap string string) (c0 : ascii)
    (t currentNs : string) :
  c0 ≠ "*"%char → Go.len t < 2 →
  lookUpNamespace objnsmap (String c0 t) currentNs = None.
Proof.
  intros Hstar Hlen. unfold lookUpNamespace.
  rewrite bool_decide_eq_false_2 by done.
  rewrite (slice_Some _ 0 1) by (unfold Go.len; simpl; lia).
  rewrite (slice_None _ 0 3) by (unfold Go.len in *; simpl in *; lia).
  simpl. rewrite bool_decide_eq_false_2; [done|].
  destruct t; simpl; congruence.
Qed.

Lemma lookUpNamespace_three (objnsmap : gmap string string) (c0 c1 c2 : ascii)
    (t currentNs : string) :
  c0 ≠ "*"%char →
  lookUpNamespace objnsmap (String c0 (String c1 (String c2 t))) currentNs =
    Some (if bool_decide (String c0 (String c1 (String c2 "")) = "[]*")
          then resolved objnsmap "[]*" t currentNs
          else if bool_decide (String c0 (String c1 "") = "[]")
               then resolved objnsmap "[]" (String c2 t) currentNs
               else resolved objnsmap "" (String c0 (String c1 (String c2 t)))
                      currentNs).
Proof.
  intros Hstar. slices.
  rewrite (bool_decide_eq_false_2 (String c0 "" = "*")) by congruence.
  repeat case_bool_decide; cbn [mbind option_bind]; apply lookUpNamespace_tail.
Qed.

(** What [lookUpNamespace] returns on a string that is not empty, when it
    returns: the string is a decoration and a bare name, and the result is
    what resolving the bare name under the decoration is to give. *)
Lemma lookUpNamespace_inv (objnsmap : gmap string string)
    (type_ currentNs r : string) :
  type_ ≠ "" →
  lookUpNamespace objnsmap type_ currentNs = Some r →
  ∃ deco name,
    type_ = deco +:+ name ∧ deco ∈ [""; "*"; "[]"; "[]*"] ∧
    r = resolved objnsmap deco name currentNs.
Proof.
  intros Hne Hlook. destruct type_ as [|c0 t]; [done|].
  destruct (decide (c0 = "*"%char)) as [->|Hstar].
  { rewrite lookUpNamespace_star in Hlook. injection Hlook as <-.
    exists "*", t. split; [done|]. split; [set_solver|done]. }
  destruct t as [|c1 [|c2 t]];
    try (rewrite lookUpNamespace_short in Hlook
           by (done || (unfold Go.len; simpl; lia)); discriminate Hlook).
  rewrite lookUpNamespace_three in Hlook by done. injection Hlook as <-.
  case_bool_decide as H3; [|case_bool_decide as H2].
  - injection H3 as -> -> ->. exists "[]*", t. split; [done|]. split; [set_solver|done].
  - injection H2 as -> ->. exists "[]", (String c2 t).
    split; [done|]. split; [set_solver|done].
  - eexists "", _. split; [done|]. split; [set_solver|done].
Qed.

(** X8. [lookUpNamespace] only ever inserts an owning namespace and a dot
    between the decoration and the bare name: when it returns, the result
    is its argument, or its argument qualified so by the namespace the
    index holds for the bare name, which is then neither empty nor the
    current namespace. *)
Theorem lookUpNamespace_inserts (objnsmap : gmap string string)
    (type_ currentNs r : string) :
  lookUpNamespace objnsmap type_ currentNs = Some r →
  r = type_ ∨
  ∃ deco name owner,
    type_ = deco +:+ name ∧ deco ∈ [""; "*"; "[]"; "[]*"] ∧
    objnsmap !! name = Some owner ∧ owner ≠ "" ∧ owner ≠ currentNs ∧
    r = deco +:+ owner +:+ "." +:+ name.
Proof.
  intros Hlook. destruct (decide (type_ = "")) as [->|Hne].
  { left. by injection Hlook. }
  destruct (lookUpNamespace_inv _ _ _ _ Hne Hlook) as (deco & name & -> & Hdeco & ->).
  unfold resolved. destruct (objnsmap !! name) as [owner|] eqn:Hname; [|by left].
  case_bool_decide as Hown; [by left|]. right.
  exists deco, name, owner. repeat split; try done; intros ->; apply Hown; tauto.
Qed.

Lemma lookUpNamespace_inserts_witness :
  "*do.HostSystem" = "*HostSystem" ∨
  ∃ deco name owner,
    "*HostSystem" = deco +:+ name ∧ deco ∈ [""; "*"; "[]"; "[]*"] ∧
    ({["HostSystem" := "do"]} : gmap string string) !! name = Some owner ∧
    owner ≠ "" ∧ owner ≠ "mo" ∧
    "*do.HostSystem" = deco +:+ owner +:+ "." +:+ name.
Proof.
  apply (lookUpNamespace_inserts {["HostSystem" := "do"]} "*HostSystem" "mo"
           "*do.HostSystem").
  reflexivity.
Defined.

(** X9. Where every name of the index is owned by the current namespace
    (or by none), [lookUpNamespace] returns its argument as it is. *)
Theorem lookUpNamespace_same_namespace (objnsmap : gmap string string)
    (type_ currentNs r : string) :
  (∀ name owner, objnsmap !! name = Some owner → owner = "" ∨ owner = currentNs) →
  lookUpNamespace objnsmap type_ currentNs = Some r →
  r = type_.
Proof.
  intros Hown Hlook. destruct (decide (type_ = "")) as [->|Hne].
  { by injection Hlook. }
  destruct (lookUpNamespace_inv _ _ _ _ Hne Hlook) as (deco & name & -> & Hdeco & ->).
  unfold resolved. destruct (objnsmap !! name) as [owner|] eqn:Hname; [|done].
  rewrite bool_decide_eq_true_2; [done|]. by eapply Hown.
Qed.

Lemma lookUpNamespace_same_namespace_witness : "[]*HostSystem" = "[]*HostSystem".
Proof.
  apply (lookUpNamespace_same_namespace {["HostSystem" := "do"]}
           "[]*HostSystem" "do" "[]*HostSystem").
  - intros name owner Hlook.
    apply lookup_singleton_Some in Hlook as [_ <-]. by right.
  - reflexivity.
Defined.

Lemma xsd2GoTypes_value_long (k v : string) :
  xsd2GoTypes !! k = Some v →
  k ≠ "" ∧ ∃ c0 c1 c2 t, v = String c0 (String c1 (String c2 t)).
Proof.
  rewrite xsd2GoTypes_lookup. unfold xsd2GoTypes_entries.
  rewrite !elem_of_cons, elem_of_nil. intros H.
  repeat (destruct H as [H|H];
          [injection H as -> ->; split; [done|by eexists _, _, _, _]|]).
  destruct H.
Qed.

(** X10. [lookUpNamespace] never panics on a type [toGoType] returns: the
    mapped type is empty, begins with ["*"], or has three bytes at
    least. *)
Theorem lookUpNamespace_toGoType (objnsmap : gmap string string)
    (xsdType currentNs : string) :
  is_Some (lookUpNamespace objnsmap (toGoType xsdType) currentNs).
Proof.
  destruct (decide (xsdType = "")) as [->|Hne]; [by eexists|].
  rewrite toGoType_stripns by done. cbv zeta.
  set (local := stripns xsdType).
  unfold Go.index, Go.has.
  destruct (xsd2GoTypes !! local) as [v|] eqn:Hv.
  - destruct (xsd2GoTypes_value_long _ _ Hv) as (_ & c0 & c1 & c2 & t & ->).
    change (default "" (Some ?x)) with x.
    rewrite bool_decide_eq_true_2 by done. apply lookUpNamespace_long.
  - change (default "" None) with "".
    rewrite (bool_decide_eq_false_2 ("" ≠ "")) by (intros H; by apply H).
    destruct (Go.HasSuffix local "[]").
    + case_bool_decide as Hbase.
      * destruct Hbase as [v' Hbase].
        destruct (xsd2GoTypes_value_long _ _ Hbase) as (Hne' & _).
        destruct (Go.take _ _) as [|c t]; [done|]. apply lookUpNamespace_long.
      * apply lookUpNamespace_long.
    + change ("*" +:+ local) with (String "*" local).
      rewrite lookUpNamespace_star. by eexists.
Qed.

(** ** [genCode], continued *)

Lemma render_filter (E : Externals) (t : string) (idx : gmap string string)
    (ns : string) (objs : list Object) (d : string) :
  render E t idx ns (filter (λ o, Namespace o = ns) objs) d
  = render E t idx ns objs d.
Proof.
  revert d. induction objs as [|o objs IH]; intros d; [done|].
  rewrite filter_cons. simpl. case_decide as Hns.
  - simpl. rewrite bool_decide_eq_false_2 by (intros H; by apply H).
    destruct (template_Execute E t idx o); [apply IH|done..].
  - rewrite bool_decide_eq_true_2 by done. apply IH.
Qed.

Lemma genCode_world_render (E : Externals) (objs objs' : list Object)
    (mp t ns : string) (w : World) :
  (∀ idx d, render E t idx ns objs d = render E t idx ns objs' d) →
  genCode_world E objs mp t ns w = genCode_world E objs' mp t ns w.
Proof.
  intros Hrender. unfold genCode_world.
  destruct (os_Create E _ _); [done|]. by rewrite Hrender.
Qed.

Lemma genCode_finished_exited (E : Externals) (objs : list Object)
    (mp t ns : string) (w : World) :
  exited w = None →
  finished (genCode E objs mp t ns w).1
  = bool_decide (exited (genCode_world E objs mp t ns w) = None).
Proof.
  intros Hw. destruct (genCode_genCode_world E objs mp t ns w Hw) as [_ Hfin].
  destruct (finished _); symmetry.
  - apply bool_decide_eq_true_2. by apply Hfin.
  - apply bool_decide_eq_false_2. intros H. apply Hfin in H. discriminate H.
Qed.

(** X11. The objects of the other namespaces play no part in [genCode]:
    it leaves the world it leaves on the objects of its namespace alone,
    and returns when it returns on them. *)
Theorem genCode_other_namespaces (E : Externals) (objs : list Object)
    (mp t ns : string) (w : World) :
  (genCode E objs mp t ns w).2
  = (genCode E (filter (λ o, Namespace o = ns) objs) mp t ns w).2 ∧
  finished (genCode E objs mp t ns w).1
  = finished (genCode E (filter (λ o, Namespace o = ns) objs) mp t ns w).1.
Proof.
  destruct (exited w) as [code|] eqn:Hw.
  { unfold genCode. by rewrite !genCode_run_exited by (by rewrite Hw). }
  rewrite !genCode_finished_exited by done.
  destruct (genCode_genCode_world E objs mp t ns w Hw) as [-> _].
  destruct (genCode_genCode_world E (filter (λ o, Namespace o = ns) objs)
              mp t ns w Hw) as [-> _].
  rewrite (genCode_world_render E objs (filter (λ o, Namespace o = ns) objs));
    [done|].
  intros idx d. symmetry. apply render_filter.
Qed.

(** The rendered units of the objects of a namespace, in schema order. *)
Lemma render_units (E : Externals) (t : string) (idx : gmap string string)
    (ns : string) (text : Object → string) (objs : list Object) (d : string) :
  (∀ o, o ∈ objs → Namespace o = ns → template_Execute E t idx o = RenderOk (text o)) →
  render E t idx ns objs d =
    LoopDone (d +:+ foldr (λ o units, text o +:+ units) ""
                      (filter (λ o, Namespace o = ns) objs)).
Proof.
  revert d. induction objs as [|o objs IH]; intros d Hok.
  - simpl. by rewrite GoFacts.app_empty_r.
  - rewrite filter_cons. simpl. case_decide as Hns.
    + rewrite bool_decide_eq_false_2 by (intros H; by apply H).
      rewrite Hok by (done || by left).
      rewrite IH by (intros o' Ho'; apply Hok; by right).
      simpl. by rewrite GoFacts.app_assoc.
    + rewrite bool_decide_eq_true_2 by done.
      apply IH. intros o' Ho'. apply Hok. by right.
Qed.

(** X12. When every object of the namespace renders, the buffer given to
    [format.Source] is the boilerplate followed by the rendered units of
    the objects of the namespace, in schema order, and the file holds its
    formatted text. *)
Theorem genCode_schema_order (E : Externals) (objs : list Object)
    (mp t ns : string) (w : World) (text : Object → string) (fsource : string) :
  exited w = None →
  os_Create E (fs (ensure_dir E (mp +:+ "/" +:+ ns) w))
    (file_of (call_genCode objs mp t ns)) = None →
  (∀ o, o ∈ objs → Namespace o = ns →
        template_Execute E t (objnsmap w) o = RenderOk (text o)) →
  format_Source E
    (boilerplate E ns
     +:+ foldr (λ o units, text o +:+ units) ""
           (filter (λ o, Namespace o = ns) objs)) = inl fsource →
  render E t (objnsmap w) ns objs (boilerplate E ns) =
    LoopDone (boilerplate E ns
              +:+ foldr (λ o units, text o +:+ units) ""
                    (filter (λ o, Namespace o = ns) objs)) ∧
  files (fs (genCode E objs mp t ns w).2) !! file_of (call_genCode objs mp t ns)
  = Some fsource ∧
  finished (genCode E objs mp t ns w).1 = true.
Proof.
  intros Hw Hcreate Hok Hformat.
  pose proof (render_units E t (objnsmap w) ns text objs (boilerplate E ns) Hok)
    as Hrender.
  split; [done|].
  rewrite genCode_finished_exited by done.
  destruct (genCode_genCode_world E objs mp t ns w Hw) as [-> _].
  rewrite (genCode_world_rendered E objs mp t ns w _ Hcreate Hrender), Hformat.
  destruct (ensure_dir_frame E (mp +:+ "/" +:+ ns) w) as (_ & _ & Hex).
  split.
  - simpl. apply lookup_insert_eq.
  - apply bool_decide_eq_true_2. simpl. congruence.
Qed.

Lemma genCode_schema_order_witness :
  render (scenario true) "do template" (objnsmap (fresh_world (mkFS ∅ ∅))) "do"
    (scenario_objects ++ [mkObject "Datastore" "do" "" [] []])
    (boilerplate (scenario true) "do") =
    LoopDone (boilerplate (scenario true) "do"
              +:+ foldr (λ o units,
                           ("type " +:+ Name o +:+ " struct {}" +:+ String LF "")
                           +:+ units) ""
                    (filter (λ o, Namespace o = "do")
                       (scenario_objects ++ [mkObject "Datastore" "do" "" [] []]))) ∧
  files (fs (genCode (scenario true)
               (scenario_objects ++ [mkObject "Datastore" "do" "" [] []])
               "./vim" "do template" "do" (fresh_world (mkFS ∅ ∅))).2)
    !! file_of (call_genCode
                  (scenario_objects ++ [mkObject "Datastore" "do" "" [] []])
                  "./vim" "do template" "do")
  = Some (boilerplate (scenario true) "do"
          +:+ ("type HostSystem struct {}" +:+ String LF "")
          +:+ ("type Datastore struct {}" +:+ String LF "")) ∧
  finished (genCode (scenario true)
              (scenario_objects ++ [mkObject "Datastore" "do" "" [] []])
              "./vim" "do template" "do" (fresh_world (mkFS ∅ ∅))).1 = true.
Proof.
  apply (genCode_schema_order (scenario true)
           (scenario_objects ++ [mkObject "Datastore" "do" "" [] []])
           "./vim" "do template" "do" (fresh_world (mkFS ∅ ∅))
           (λ o, "type " +:+ Name o +:+ " struct {}" +:+ String LF "")).
  - reflexivity.
  - reflexivity.
  - intros o _ _. reflexivity.
  - vm_compute. reflexivity.
Defined.

Lemma render_app (E : Externals) (t : string) (idx : gmap string string)
    (ns : string) (before after : list Object) (d : string) :
  render E t idx ns (before ++ after) d =
    match render E t idx ns before d with
    | LoopDone d' => render E t idx ns after d'
    | failure => failure
    end.
Proof.
  revert d. induction before as [|o before IH]; intros d; [done|]. simpl.
  case_bool_decide; [apply IH|].
  destruct (template_Execute E t idx o); [apply IH|done..].
Qed.

(** X13. The first object of the namespace that does not render ends the
    run: the file of the namespace is left created and empty, with exit
    status 1 and the error logged when [Execute] fails, and with exit
    status 2 when the template does not parse. *)
Theorem genCode_template_failure (E : Externals) (before after : list Object)
    (obj : Object) (mp t ns : string) (w : World) (text : Object → string) :
  exited w = None →
  os_Create E (fs (ensure_dir E (mp +:+ "/" +:+ ns) w))
    (file_of (call_genCode (before ++ obj :: after) mp t ns)) = None →
  (∀ o, o ∈ before → Namespace o = ns →
        template_Execute E t (objnsmap w) o = RenderOk (text o)) →
  Namespace obj = ns →
  (∀ err, template_Execute E t (objnsmap w) obj = RenderError err →
     files (fs (genCode E (before ++ obj :: after) mp t ns w).2)
       !! file_of (call_genCode (before ++ obj :: after) mp t ns) = Some "" ∧
     exited (genCode E (before ++ obj :: after) mp t ns w).2 = Some 1%Z ∧
     log (genCode E (before ++ obj :: after) mp t ns w).2
       = log w ++ [err +:+ String LF ""] ∧
     finished (genCode E (before ++ obj :: after) mp t ns w).1 = false) ∧
  (∀ msg, template_Execute E t (objnsmap w) obj = RenderPanic msg →
     files (fs (genCode E (before ++ obj :: after) mp t ns w).2)
       !! file_of (call_genCode (before ++ obj :: after) mp t ns) = Some "" ∧
     exited (genCode E (before ++ obj :: after) mp t ns w).2 = Some 2%Z ∧
     log (genCode E (before ++ obj :: after) mp t ns w).2
       = log w ++ ["panic: " +:+ msg] ∧
     finished (genCode E (before ++ obj :: after) mp t ns w).1 = false).
Proof.
  intros Hw Hcreate Hok Hns.
  rewrite genCode_finished_exited by done.
  destruct (genCode_genCode_world E (before ++ obj :: after) mp t ns w Hw)
    as [-> _].
  destruct (ensure_dir_frame E (mp +:+ "/" +:+ ns) w) as (Hidx & Hlog & Hex).
  unfold genCode_world.
  change (file_of (call_genCode (before ++ obj :: after) mp t ns))
    with ((mp +:+ "/" +:+ ns) +:+ "/" +:+ ns +:+ ".go") in *.
  rewrite Hcreate. cbn [objnsmap create_file set_fs]. rewrite Hidx.
  rewrite render_app, (render_units E t (objnsmap w) ns text before _ Hok).
  simpl. rewrite bool_decide_eq_false_2 by (intros H; by apply H).
  split; intros x ->; simpl; rewrite Hlog;
    (split; [apply lookup_insert_eq|done]).
Qed.

Lemma genCode_template_failure_witness :
  (∀ err,
     template_Execute
       scenario_no_field
       "t" (objnsmap (fresh_world (mkFS ∅ ∅))) (mkObject "Task" "mo" "" [] [])
     = RenderError err →
     files (fs (genCode
                  scenario_no_field
                  ([] ++ mkObject "Task" "mo" "" [] [] :: []) "./vim" "t" "mo"
                  (fresh_world (mkFS ∅ ∅))).2)
       !! file_of (call_genCode ([] ++ mkObject "Task" "mo" "" [] [] :: [])
                     "./vim" "t" "mo") = Some "" ∧
     exited (genCode
               scenario_no_field
               ([] ++ mkObject "Task" "mo" "" [] [] :: []) "./vim" "t" "mo"
               (fresh_world (mkFS ∅ ∅))).2 = Some 1%Z ∧
     log (genCode
            scenario_no_field
            ([] ++ mkObject "Task" "mo" "" [] [] :: []) "./vim" "t" "mo"
            (fresh_world (mkFS ∅ ∅))).2
       = log (fresh_world (mkFS ∅ ∅)) ++ [err +:+ String LF ""] ∧
     finished (genCode
                 scenario_no_field
                 ([] ++ mkObject "Task" "mo" "" [] [] :: []) "./vim" "t" "mo"
                 (fresh_world (mkFS ∅ ∅))).1 = false) ∧
  (∀ msg,
     template_Execute
       scenario_no_field
       "t" (objnsmap (fresh_world (mkFS ∅ ∅))) (mkObject "Task" "mo" "" [] [])
     = RenderPanic msg →
     files (fs (genCode
                  scenario_no_field
                  ([] ++ mkObject "Task" "mo" "" [] [] :: []) "./vim" "t" "mo"
                  (fresh_world (mkFS ∅ ∅))).2)
       !! file_of (call_genCode ([] ++ mkObject "Task" "mo" "" [] [] :: [])
                     "./vim" "t" "mo") = Some "" ∧
     exited (genCode
               scenario_no_field
               ([] ++ mkObject "Task" "mo" "" [] [] :: []) "./vim" "t" "mo"
               (fresh_world (mkFS ∅ ∅))).2 = Some 2%Z ∧
     log (genCode
            scenario_no_field
            ([] ++ mkObject "Task" "mo" "" [] [] :: []) "./vim" "t" "mo"
            (fresh_world (mkFS ∅ ∅))).2
       = log (fresh_world (mkFS ∅ ∅)) ++ ["panic: " +:+ msg] ∧
     finished (genCode
                 scenario_no_field
                 ([] ++ mkObject "Task" "mo" "" [] [] :: []) "./vim" "t" "mo"
                 (fresh_world (mkFS ∅ ∅))).1 = false).
Proof.
  apply (genCode_template_failure
           scenario_no_field
           [] [] (mkObject "Task" "mo" "" [] []) "./vim" "t" "mo"
           (fresh_world (mkFS ∅ ∅)) (λ _, "")).
  - reflexivity.
  - reflexivity.
  - intros o Ho. by apply elem_of_nil in Ho.
  - reflexivity.
Defined.

(** X14. When [os.Create] fails, [genCode] ends the run with its error
    logged and exit status 1, and no file is created or changed. *)
Theorem genCode_create_failure (E : Externals) (objs : list Object)
    (mp t ns : string) (w : World) (err : string) :
  exited w = None →
  os_Create E (fs (ensure_dir E (mp +:+ "/" +:+ ns) w))
    (file_of (call_genCode objs mp t ns)) = Some err →
  files (fs (genCode E objs mp t ns w).2) = files (fs w) ∧
  exited (genCode E objs mp t ns w).2 = Some 1%Z ∧
  log (genCode E objs mp t ns w).2 = log w ++ [err +:+ String LF ""] ∧
  finished (genCode E objs mp t ns w).1 = false.
Proof.
  intros Hw Hcreate.
  rewrite genCode_finished_exited by done.
  destruct (genCode_genCode_world E objs mp t ns w Hw) as [-> _].
  destruct (ensure_dir_frame E (mp +:+ "/" +:+ ns) w) as (_ & Hlog & _).
  destruct (ensure_dir_fs E (mp +:+ "/" +:+ ns) w) as (Hfiles & _).
  unfold genCode_world.
  change (file_of (call_genCode objs mp t ns))
    with ((mp +:+ "/" +:+ ns) +:+ "/" +:+ ns +:+ ".go") in *.
  rewrite Hcreate. simpl. by rewrite Hlog.
Qed.

Lemma genCode_create_failure_witness :
  files (fs (genCode scenario_read_only scenario_objects "./vim" "t" "mo"
               (fresh_world (mkFS ∅ {["./vim/mo/mo.go" := "package mo"]}))).2)
  = files (fs (fresh_world (mkFS ∅ {["./vim/mo/mo.go" := "package mo"]}))) ∧
  exited (genCode scenario_read_only scenario_objects "./vim" "t" "mo"
            (fresh_world (mkFS ∅ {["./vim/mo/mo.go" := "package mo"]}))).2
  = Some 1%Z ∧
  log (genCode scenario_read_only scenario_objects "./vim" "t" "mo"
         (fresh_world (mkFS ∅ {["./vim/mo/mo.go" := "package mo"]}))).2
  = log (fresh_world (mkFS ∅ {["./vim/mo/mo.go" := "package mo"]}))
    ++ ["permission denied" +:+ String LF ""] ∧
  finished (genCode scenario_read_only scenario_objects "./vim" "t" "mo"
              (fresh_world (mkFS ∅ {["./vim/mo/mo.go" := "package mo"]}))).1
  = false.
Proof.
  apply (genCode_create_failure scenario_read_only scenario_objects "./vim" "t"
           "mo" (fresh_world (mkFS ∅ {["./vim/mo/mo.go" := "package mo"]}))
           "permission denied"); reflexivity.
Defined.

Lemma genCode_world_frame (E : Externals) (objs : list Object)
    (mp t ns : string) (w : World) :
  objnsmap (genCode_world E objs mp t ns w) = objnsmap w ∧
  (∀ path, path ≠ file_of (call_genCode objs mp t ns) →
     files (fs (genCode_world E objs mp t ns w)) !! path = files (fs w) !! path) ∧
  dirs (fs w) ⊆ dirs (fs (genCode_world E objs mp t ns w)) ∧
  dirs (fs (genCode_world E objs mp t ns w)) ⊆ {[mp +:+ "/" +:+ ns]} ∪ dirs (fs w) ∧
  ∃ more, log (genCode_world E objs mp t ns w) = log w ++ more ∧ length more ≤ 1.
Proof.
  destruct (ensure_dir_frame E (mp +:+ "/" +:+ ns) w) as (Hidx & Hlog & _).
  destruct (ensure_dir_fs E (mp +:+ "/" +:+ ns) w) as (Hfiles & Hd1 & Hd2).
  unfold genCode_world.
  change (file_of (call_genCode objs mp t ns))
    with ((mp +:+ "/" +:+ ns) +:+ "/" +:+ ns +:+ ".go") in *.
  set (file := (mp +:+ "/" +:+ ns) +:+ "/" +:+ ns +:+ ".go").
  destruct (os_Create E _ _) as [err|].
  { simpl. rewrite Hlog, Hfiles. repeat split; try done. by eexists [_]. }
  destruct (render E t _ ns objs _) as [source|msg|err];
    [destruct (format_Source E source) as [fsource|err]|..];
    simpl; rewrite Hlog, Hfiles;
    (repeat split; try done;
     [intros path Hpath; by rewrite !lookup_insert_ne by (by apply not_eq_sym)|]).
  - exists []. split; [by rewrite app_nil_r|simpl; lia].
  - by eexists [_].
  - by eexists [_].
  - by eexists [_].
Qed.

(** X15. Whatever happens, [genCode] leaves [objnsmap] as it was, touches
    no file but the one of its namespace, makes no directory but the one
    of its namespace and removes none, and logs one message at most. *)
Theorem genCode_frame (E : Externals) (objs : list Object) (mp t ns : string)
    (w : World) :
  objnsmap (genCode E objs mp t ns w).2 = objnsmap w ∧
  (∀ path, path ≠ file_of (call_genCode objs mp t ns) →
     files (fs (genCode E objs mp t ns w).2) !! path = files (fs w) !! path) ∧
  dirs (fs w) ⊆ dirs (fs (genCode E objs mp t ns w).2) ∧
  dirs (fs (genCode E objs mp t ns w).2) ⊆ {[mp +:+ "/" +:+ ns]} ∪ dirs (fs w) ∧
  ∃ more, log (genCode E objs mp t ns w).2 = log w ++ more ∧ length more ≤ 1.
Proof.
  destruct (exited w) as [code|] eqn:Hw.
  - unfold genCode. rewrite genCode_run_exited by (by rewrite Hw). simpl.
    repeat split; try done; [set_solver|].
    exists []. split; [by rewrite app_nil_r|simpl; lia].
  - destruct (genCode_genCode_world E objs mp t ns w Hw) as [-> _].
    apply genCode_world_frame.
Qed.

(** ** [generate], continued *)

Lemma genCode_step_args (E : Externals) (f : Frame) (w : World) :
  objects (genCode_step E f w).1 = objects f ∧
  mainPkg (genCode_step E f w).1 = mainPkg f ∧
  tmpl (genCode_step E f w).1 = tmpl f ∧
  namespace (genCode_step E f w).1 = namespace f.
Proof.
  unfold genCode_step. destruct (pc f) as [| | |[|obj rest]| |]; simpl; try done.
  - by destruct (os_Create E (fs w) (file_of f)).
  - case_bool_decide; [done|].
    by destruct (template_Execute E (tmpl f) (objnsmap w) obj).
  - by destruct (format_Source E (data f)).
Qed.

(** A step of [genCode] touches no file but the one of its namespace. *)
Lemma genCode_step_files (E : Externals) (f : Frame) (w : World) (path : string) :
  path ≠ file_of f →
  files (fs (genCode_step E f w).2) !! path = files (fs w) !! path.
Proof.
  intros Hpath. unfold genCode_step.
  destruct (pc f) as [| | |[|obj rest]| |]; simpl; try done.
  - by destruct (ensure_dir_fs E (pkg_of f) w) as [-> _].
  - destruct (os_Create E (fs w) (file_of f)); simpl; [done|].
    by apply lookup_insert_ne, not_eq_sym.
  - case_bool_decide; [done|].
    by destruct (template_Execute E (tmpl f) (objnsmap w) obj).
  - destruct (format_Source E (data f)); simpl;
      by apply lookup_insert_ne, not_eq_sym.
Qed.

(** The four goroutines write four files. *)
Lemma goroutines_files (E : Externals) (i j : nat) (t1 n1 t2 n2 : string) :
  goroutines E !! i = Some (t1, n1) → goroutines E !! j = Some (t2, n2) →
  i ≠ j →
  ("./vim" +:+ "/" +:+ n1) +:+ "/" +:+ n1 +:+ ".go"
  ≠ ("./vim" +:+ "/" +:+ n2) +:+ "/" +:+ n2 +:+ ".go".
Proof.
  unfold goroutines.
  destruct i as [|[|[|[|i]]]]; destruct j as [|[|[|[|j]]]]; simpl;
    intros [= <- <-] [= <- <-] Hij; try done; by vm_compute.
Qed.

Lemma file_of_args (f : Frame) :
  file_of f = (mainPkg f +:+ "/" +:+ namespace f) +:+ "/" +:+ namespace f +:+ ".go".
Proof. reflexivity. Qed.

Lemma render_snoc_skip (E : Externals) (t : string) (idx : gmap string string)
    (ns : string) (passed : list Object) (obj : Object) (d d' : string) :
  render E t idx ns passed d = LoopDone d' →
  render E t idx ns (passed ++ [obj]) d = render E t idx ns [obj] d'.
Proof. intros H. by rewrite render_app, H. Qed.

(** A step of a goroutine keeps what it has done so far. *)
Lemma task_inv_step (E : Externals) (objs : list Object) (f : Frame) (w : World) :
  objnsmap w = buildIndex objs → objects f = objs →
  task_inv E objs w f →
  task_inv E objs (genCode_step E f w).2 (genCode_step E f w).1.
Proof.
  intros Hidx Hobjs. unfold task_inv, genCode_step.
  destruct f as [objs' mp t ns p d]. simpl in *. subst objs'.
  destruct p as [| | |[|obj rest]| |]; simpl.
  - done.
  - by destruct (os_Create E (fs w) _).
  - intros _. by exists [].
  - intros (passed & -> & Hrender). by rewrite app_nil_r in *.
  - intros (passed & Hobjs & Hrender).
    case_bool_decide as Hns; simpl.
    + exists (passed ++ [obj]). split; [by rewrite <- app_assoc|].
      rewrite (render_snoc_skip _ _ _ _ _ _ _ _ Hrender). simpl.
      by rewrite bool_decide_eq_true_2.
    + destruct (template_Execute E t (objnsmap w) obj) as [text|msg|err] eqn:Hexec;
        simpl; try by exists passed.
      exists (passed ++ [obj]). split; [by rewrite <- app_assoc|].
      rewrite (render_snoc_skip _ _ _ _ _ _ _ _ Hrender). simpl.
      rewrite bool_decide_eq_false_2 by (intros H; by apply H).
      by rewrite <- Hidx, Hexec.
  - intros Hrender.
    destruct (format_Source E d) as [fsource|err] eqn:Hformat; simpl; [|done].
    exists fsource. split; [done|]. split; [done|]. apply lookup_insert_eq.
  - done.
Qed.

(** The step of another goroutine changes nothing of it. *)
Lemma task_inv_other (E : Externals) (objs : list Object) (g f : Frame) (w : World) :
  file_of g ≠ file_of f →
  task_inv E objs w g →
  task_inv E objs (genCode_step E f w).2 g.
Proof.
  intros Hfile. unfold task_inv. destruct (pc g); try done.
  intros (fsource & ? & ? & Hlook). exists fsource.
  by rewrite genCode_step_files.
Qed.

Lemma main_step_run_inv (E : Externals) (apiDefFile : string) (m : Machine) :
  exited (world m) = None →
  run_inv E apiDefFile m → run_inv E apiDefFile (main_step E apiDefFile m).
Proof.
  intros Hex [Hgen Hrun]. split; [by apply main_step_inv|].
  unfold generate_inv in Hgen. unfold main_step.
  destruct m as [p started w]. simpl in *.
  destruct p as [|apiDef|objs|objs [|obj rest]|objs|objs k|objs|objs]; simpl.
  - by destruct (ioutil_ReadFile E apiDefFile) eqn:Hread.
  - destruct (json_Unmarshal E apiDef) eqn:Hparse; simpl; [|done].
    by exists apiDef.
  - done.
  - done.
  - done.
  - destruct Hgen as [-> _]. split; [done|]. split; [done|]. split; [lia|].
    intros i f Hi. simpl in Hi. by destruct i.
  - destruct Hrun as (Hparsed & Hlen & Hk & Hpool).
    destruct (goroutines E !! k) as [[t ns]|] eqn:Hgo; simpl.
    + pose proof (lookup_lt_Some _ _ _ Hgo) as Hlt. simpl in Hlt.
      split; [done|]. split; [rewrite length_app; simpl; lia|]. split; [lia|].
      intros i f Hi. apply lookup_app_Some in Hi as [Hi|[Hge Hi]].
      * by apply Hpool.
      * apply list_lookup_singleton_Some in Hi as [Hi <-].
        replace i with k by lia. by exists t, ns.
    + apply lookup_ge_None in Hgo. simpl in Hgo.
      split; [done|]. split; [lia|done].
  - destruct Hrun as (Hparsed & Hlen & Hpool).
    by destruct (forallb finished started) eqn:Hfin.
  - done.
Qed.

Lemma task_step_run_inv (E : Externals) (apiDefFile : string) (m : Machine)
    (i : nat) (f : Frame) :
  exited (world m) = None →
  tasks m !! i = Some f → finished f = false →
  run_inv E apiDefFile m →
  run_inv E apiDefFile
    (mkMachine (main m) (<[i := (genCode_step E f (world m)).1]> (tasks m))
       (genCode_step E f (world m)).2).
Proof.
  intros Hex Hi Hfin [Hgen Hrun].
  assert (generate_inv
            (mkMachine (main m) (<[i := (genCode_step E f (world m)).1]> (tasks m))
               (genCode_step E f (world m)).2)) as Hgen'.
  { eapply (step_inv E apiDefFile m); [|done].
    apply (step_task E apiDefFile m i f); try done.
    by destruct (genCode_step E f (world m)). }
  split; [done|].
  unfold generate_inv in Hgen. destruct m as [p started w]. simpl in *.
  assert (∀ objs, objnsmap w = buildIndex objs → pool_inv E objs (mkMachine p started w) →
          pool_inv E objs
            (mkMachine p (<[i := (genCode_step E f w).1]> started)
               (genCode_step E f w).2)) as Hpool'.
  { intros objs Hidx Hpool j g Hj. simpl in *.
    destruct (Hpool i f Hi) as (t & ns & Hgo & Hobjs & Hmp & Ht & Hns & Hinv).
    destruct (genCode_step_args E f w) as (Ha1 & Ha2 & Ha3 & Ha4).
    destruct (decide (i = j)) as [<-|Hij].
    - rewrite list_lookup_insert_eq in Hj by (by eapply lookup_lt_Some).
      injection Hj as <-. exists t, ns.
      repeat split; try congruence. by apply task_inv_step.
    - rewrite list_lookup_insert_ne in Hj by done.
      destruct (Hpool j g Hj) as (t' & ns' & Hgo' & Hobjs' & Hmp' & Ht' & Hns' & Hinv').
      exists t', ns'. repeat split; try done.
      apply task_inv_other; [|done].
      rewrite !file_of_args, Hmp, Hmp', Hns, Hns'.
      by eapply goroutines_files. }
  assert (started ≠ []) as Hne by (by intros ->).
  destruct p as [|apiDef|objs|objs rest|objs|objs k|objs|objs]; simpl in *;
    try (by destruct Hne); try (by destruct Hne; apply Hgen).
  - destruct Hrun as (Hparsed & Hlen & Hk & Hpool).
    rewrite length_insert. repeat split; try done. by apply Hpool'.
  - destruct Hrun as (Hparsed & Hlen & Hpool).
    rewrite length_insert. repeat split; try done. by apply Hpool'.
  - destruct Hrun as (_ & _ & _ & Hall & _).
    rewrite forallb_forall in Hall.
    assert (finished f = true) as Hf; [|congruence].
    apply Hall, list_elem_of_In, list_elem_of_lookup. by exists i.
Qed.

Lemma reachable_run_inv (E : Externals) (apiDefFile : string) (f : FileSystem)
    (m : Machine) :
  reachable E apiDefFile f m → run_inv E apiDefFile m.
Proof.
  unfold reachable. revert m.
  apply (rtc_ind_r (run_inv E apiDefFile)); [by split|].
  intros y z _ Hstep Hy.
  destruct Hstep as [m0 Hex|m0 i g g' w' Hex Hi Hg Hstep].
  - by apply main_step_run_inv.
  - pose proof (task_step_run_inv E apiDefFile m0 i g Hex Hi Hg Hy) as Hinv.
    by rewrite Hstep in Hinv.
Qed.

(** A schedule is a run. *)
Lemma reachable_schedule (E : Externals) (apiDefFile : string) (f : FileSystem)
    (schedule : list (option nat)) (m : Machine) :
  reachable E apiDefFile f m →
  reachable E apiDefFile f (run_schedule E apiDefFile schedule m).
Proof.
  unfold reachable, run_schedule. revert m.
  induction schedule as [|who schedule IH]; intros m Hm; [done|]. simpl.
  apply IH. case_bool_decide as Hex; [|done].
  destruct who as [i|].
  - unfold task_step. destruct (tasks m !! i) as [g|] eqn:Hi; [|done].
    destruct (finished g) eqn:Hg; [done|].
    eapply rtc_r; [done|].
    apply (step_task E apiDefFile m i g); try done.
    by destruct (genCode_step E g (world m)).
  - eapply rtc_r; [done|]. by apply step_main.
Qed.

(** X16. In every run of [generate] there are four goroutines at most, the
    [i]-th being the call of [genCode] on all the objects parsed from the
    schema, under ["./vim"], with the [i]-th template and namespace of the
    four; it is started only once [objnsmap] is the index of these
    objects. *)
Theorem generate_goroutines (E : Externals) (apiDefFile : string)
    (f : FileSystem) (m : Machine) :
  reachable E apiDefFile f m →
  length (tasks m) ≤ 4 ∧
  ∀ i g, tasks m !! i = Some g →
    ∃ objs t ns,
      parsed E apiDefFile objs ∧ goroutines E !! i = Some (t, ns) ∧
      objects g = objs ∧ mainPkg g = "./vim" ∧ tmpl g = t ∧ namespace g = ns ∧
      objnsmap (world m) = buildIndex objs.
Proof.
  intros Hrun. apply reachable_run_inv in Hrun as [Hgen Hrun].
  unfold generate_inv in Hgen. destruct m as [p started w]. simpl in *.
  assert (∀ objs, parsed E apiDefFile objs → objnsmap w = buildIndex objs →
          pool_inv E objs (mkMachine p started w) →
          ∀ i g, started !! i = Some g →
            ∃ objs t ns,
              parsed E apiDefFile objs ∧ goroutines E !! i = Some (t, ns) ∧
              objects g = objs ∧ mainPkg g = "./vim" ∧ tmpl g = t ∧
              namespace g = ns ∧ objnsmap w = buildIndex objs) as Hpool.
  { intros objs Hparsed Hidx Hpool i g Hi.
    destruct (Hpool i g Hi) as (t & ns & ? & ? & ? & ? & ? & _).
    by exists objs, t, ns. }
  destruct p as [|apiDef|objs|objs rest|objs|objs k|objs|objs]; simpl in *.
  - subst started. split; [simpl; lia|]. intros i g Hi. by destruct i.
  - subst started. split; [simpl; lia|]. intros i g Hi. by destruct i.
  - subst started. split; [simpl; lia|]. intros i g Hi. by destruct i.
  - destruct Hgen as [-> _]. split; [simpl; lia|]. intros i g Hi. by destruct i.
  - destruct Hgen as [-> _]. split; [simpl; lia|]. intros i g Hi. by destruct i.
  - destruct Hrun as (Hparsed & Hlen & Hk & Hp). split; [lia|]. by eapply Hpool.
  - destruct Hrun as (Hparsed & Hlen & Hp). split; [lia|]. by eapply Hpool.
  - destruct Hrun as (Hparsed & Hlen & Hp & _). split; [lia|]. by eapply Hpool.
Qed.

Lemma generate_goroutines_witness :
  length (tasks scenario_end) ≤ 4 ∧
  ∀ i g, tasks scenario_end !! i = Some g →
    ∃ objs t ns,
      parsed (scenario true) "api.json" objs ∧
      goroutines (scenario true) !! i = Some (t, ns) ∧
      objects g = objs ∧ mainPkg g = "./vim" ∧ tmpl g = t ∧ namespace g = ns ∧
      objnsmap (world scenario_end) = buildIndex objs.
Proof.
  apply (generate_goroutines (scenario true) "api.json" (mkFS ∅ ∅) scenario_end).
  apply reachable_schedule, rtc_refl.
Defined.



(** X18. When the schema file cannot be read or parsed, no goroutine is
    ever started, the file system and [objnsmap] stay as they were, and
    the run ends with the error logged and exit status 1. *)
Theorem generate_input_error (E : Externals) (apiDefFile : string)
    (f : FileSystem) (err : string) (m : Machine) :
  reachable E apiDefFile f m →
  (ioutil_ReadFile E apiDefFile = inr err ∨
   ∃ apiDef, ioutil_ReadFile E apiDefFile = inl apiDef ∧
             json_Unmarshal E apiDef = inr err) →
  tasks m = [] ∧ fs (world m) = f ∧ objnsmap (world m) = ∅ ∧
  (exited (world m) = None ∧ log (world m) = [] ∨
   exited (world m) = Some 1%Z ∧ log (world m) = [err +:+ String LF ""]).
Proof.
  intros Hrun Herr.
  assert (input_error_inv E apiDefFile f err m) as (_ & Hinv); [|done].
  revert m Hrun. unfold reachable.
  apply (rtc_ind_r (input_error_inv E apiDefFile f err)).
  { split; [by left|]. repeat split. by left. }
  intros y z _ Hstep (Hmain & Htasks & Hfs & Hidx & Hlog).
  destruct Hstep as [m0 Hex|m0 i g g' w' Hex Hi Hg Hstep];
    [|by rewrite Htasks in Hi].
  destruct Hlog as [[_ Hlog]|[Hex' _]]; [|congruence].
  unfold input_error_inv, main_step. destruct m0 as [p started w]. simpl in *.
  destruct Hmain as [->|(apiDef & -> & Hread)].
  - destruct (ioutil_ReadFile E apiDefFile) as [apiDef|err'] eqn:Hread; simpl.
    + split; [right; by exists apiDef|]. repeat split; try done. by left.
    + split; [by left|]. repeat split; try done. right.
      destruct Herr as [[= ->]|(? & [=] & _)]. by rewrite Hlog.
  - destruct (json_Unmarshal E apiDef) as [objs|err'] eqn:Hparse; simpl.
    + destruct Herr as [Herr|(apiDef' & Hread' & Hparse')]; [congruence|].
      rewrite Hread in Hread'. injection Hread' as <-. congruence.
    + split; [right; by exists apiDef|]. repeat split; try done. right.
      destruct Herr as [Herr|(apiDef' & Hread' & Hparse')]; [congruence|].
      rewrite Hread in Hread'. injection Hread' as <-.
      rewrite Hparse in Hparse'. injection Hparse' as ->. by rewrite Hlog.
Qed.

Lemma generate_input_error_witness :
  tasks (run_schedule scenario_unreadable "api.json" [None; None; Some 0]
           (boot (fresh_world (mkFS ∅ ∅)))) = [] ∧
  fs (world (run_schedule scenario_unreadable "api.json" [None; None; Some 0]
               (boot (fresh_world (mkFS ∅ ∅))))) = mkFS ∅ ∅ ∧
  objnsmap (world (run_schedule scenario_unreadable "api.json"
                     [None; None; Some 0] (boot (fresh_world (mkFS ∅ ∅))))) = ∅ ∧
  (exited (world (run_schedule scenario_unreadable "api.json"
                    [None; None; Some 0] (boot (fresh_world (mkFS ∅ ∅))))) = None ∧
   log (world (run_schedule scenario_unreadable "api.json"
                 [None; None; Some 0] (boot (fresh_world (mkFS ∅ ∅))))) = [] ∨
   exited (world (run_schedule scenario_unreadable "api.json"
                    [None; None; Some 0] (boot (fresh_world (mkFS ∅ ∅)))))
   = Some 1%Z ∧
   log (world (run_schedule scenario_unreadable "api.json"
                 [None; None; Some 0] (boot (fresh_world (mkFS ∅ ∅)))))
   = ["no such file or directory" +:+ String LF ""]).
Proof.
  apply (generate_input_error scenario_unreadable "api.json" (mkFS ∅ ∅)
           "no such file or directory").
  - apply reachable_schedule, rtc_refl.
  - left. reflexivity.
Defined.

(** ** The case of the first letter *)

Lemma byte_bounds (c : ascii) : (0 ≤ Z.of_N (N_of_ascii c) < 256)%Z.
Proof. pose proof (N_ascii_bounded c). lia. Qed.

Lemma byte_ascii (c : ascii) : ascii_of_N (Z.to_N (Z.of_N (N_of_ascii c))) = c.
Proof. by rewrite N2Z.id, ascii_N_embedding. Qed.

(** An ASCII byte is a rune of its own. *)
Lemma Decode_ASCII (c : ascii) (s : string) :
  (Z.of_N (N_of_ascii c) < 0x80)%Z →
  Go.DecodeRuneInString (String c s) = (Z.of_N (N_of_ascii c), 1).
Proof.
  intros Hc. pose proof (byte_bounds c) as Hb.
  unfold Go.DecodeRuneInString, Go.decodeRune.
  rewrite bool_decide_eq_false_2 by (rewrite Utf8Facts.len_cons; lia).
  change (Go.byte_at (String c s) 0) with (Z.of_N (N_of_ascii c)).
  unfold Go.first. by destruct (Z.ltb_spec (Z.of_N (N_of_ascii c)) 128); [|lia].
Qed.

(** A byte that begins no encoding is the rune [utf8.RuneError]. *)
Lemma Decode_invalid (c : ascii) (s : string) :
  Go.first (Z.of_N (N_of_ascii c)) = 0xF1%Z →
  Go.DecodeRuneInString (String c s) = (Go.RuneError, 1).
Proof.
  intros Hc. unfold Go.DecodeRuneInString, Go.decodeRune.
  rewrite bool_decide_eq_false_2 by (rewrite Utf8Facts.len_cons; lia).
  change (Go.byte_at (String c s) 0) with (Z.of_N (N_of_ascii c)).
  by rewrite Hc.
Qed.

Lemma runes_cons (c : ascii) (s : string) (r : Z) :
  Go.DecodeRuneInString (String c s) = (r, 1) →
  runes_of_string (String c s) = r :: runes_of_string s.
Proof.
  intros Hd. unfold runes_of_string, Go.range_string.
  rewrite Utf8Facts.len_cons, Utf8Facts.range_from_S, Hd. simpl.
  f_equal. apply Utf8Facts.range_from_runes.
Qed.

Lemma string_of_runes_ASCII (r : Z) (runes : list Z) :
  (0 ≤ r < 0x80)%Z →
  string_of_runes (r :: runes) = String (ascii_of_N (Z.to_N r)) (string_of_runes runes).
Proof.
  intros Hr. unfold string_of_runes, encodeRune. simpl.
  destruct (Z.leb_spec 0 r); [|lia]. destruct (Z.leb_spec r 127); [|lia]. done.
Qed.

Lemma string_of_runes_error (runes : list Z) :
  string_of_runes (Go.RuneError :: runes)
  = String "239" (String "191" (String "189" (string_of_runes runes))).
Proof. reflexivity. Qed.

(** An ASCII string is the string of its runes. *)
Lemma string_of_runes_of_ASCII (s : string) :
  is_ASCII s = true → string_of_runes (runes_of_string s) = s.
Proof.
  induction s as [|c s IH]; [done|]. simpl.
  intros [Hc Hs]%andb_true_iff. apply Z.ltb_lt in Hc.
  rewrite (runes_cons c s _ (Decode_ASCII c s Hc)).
  rewrite string_of_runes_ASCII by (pose proof (byte_bounds c); lia).
  by rewrite byte_ascii, IH.
Qed.

Lemma ToUpper_ASCII (To : Z → Z → Z) (r : Z) :
  (0 ≤ r < 0x80)%Z →
  (0 ≤ ToUpper To r < 0x80)%Z ∧
  ToUpper To (ToUpper To r) = ToUpper To r ∧
  ToLower To (ToUpper To r) = ToLower To r.
Proof.
  intros Hr. unfold ToUpper, ToLower.
  repeat (match goal with
          | |- context [(?a <=? ?b)%Z] => destruct (Z.leb_spec a b)
          end; simpl; try lia).
Qed.

Lemma ToLower_ASCII (To : Z → Z → Z) (r : Z) :
  (0 ≤ r < 0x80)%Z →
  (0 ≤ ToLower To r < 0x80)%Z ∧
  ToLower To (ToLower To r) = ToLower To r ∧
  ToUpper To (ToLower To r) = ToUpper To r.
Proof.
  intros Hr. unfold ToUpper, ToLower.
  repeat (match goal with
          | |- context [(?a <=? ?b)%Z] => destruct (Z.leb_spec a b)
          end; simpl; try lia).
Qed.

(** [makePublic] on a string that begins with an ASCII byte. *)
Lemma makePublic_cons (To : Z → Z → Z) (c : ascii) (rest : string) (public : bool) :
  (Z.of_N (N_of_ascii c) < 0x80)%Z →
  makePublic To (String c rest) public =
    string_of_runes
      ((if public then ToUpper To (Z.of_N (N_of_ascii c))
        else ToLower To (Z.of_N (N_of_ascii c)))
       :: runes_of_string rest).
Proof.
  intros Hc. unfold makePublic.
  rewrite (runes_cons c rest _ (Decode_ASCII c rest Hc)). simpl.
  by destruct public.
Qed.

Lemma ascii_byte (n : Z) :
  (0 ≤ n < 256)%Z → Z.of_N (N_of_ascii (ascii_of_N (Z.to_N n))) = n.
Proof.
  intros Hn. rewrite N_ascii_embedding by lia. lia.
Qed.

(** X19. On an ASCII string [makePublic] changes the first byte to its
    upper case, or to its lower case, and nothing else; the empty string
    is returned as it is. *)
Theorem makePublic_ASCII (To : Z → Z → Z) (s : string) (public : bool) :
  is_ASCII s = true →
  match s with
  | EmptyString => makePublic To s public = ""
  | String c rest =>
      makePublic To s public =
        String
          (ascii_of_N
             (Z.to_N (if public then ToUpper To (Z.of_N (N_of_ascii c))
                      else ToLower To (Z.of_N (N_of_ascii c)))))
          rest
  end ∧
  is_ASCII (makePublic To s public) = true ∧
  Go.len (makePublic To s public) = Go.len s.
Proof.
  destruct s as [|c rest]; [done|]. simpl.
  intros [Hc Hrest]%andb_true_iff. apply Z.ltb_lt in Hc.
  pose proof (byte_bounds c) as Hb.
  rewrite makePublic_cons by done.
  destruct (ToUpper_ASCII To (Z.of_N (N_of_ascii c))) as (Hup & _); [lia|].
  destruct (ToLower_ASCII To (Z.of_N (N_of_ascii c))) as (Hlow & _); [lia|].
  rewrite string_of_runes_ASCII by (by destruct public).
  rewrite string_of_runes_of_ASCII by done.
  repeat split. simpl. rewrite Hrest, andb_true_r.
  apply Z.ltb_lt. rewrite ascii_byte by (destruct public; lia).
  destruct public; lia.
Qed.

Lemma makePublic_ASCII_witness :
  makePublic (λ _ r, r) "virtualMachine" true =
    String
      (ascii_of_N
         (Z.to_N (if true then ToUpper (λ _ r, r) (Z.of_N (N_of_ascii "v"))
                  else ToLower (λ _ r, r) (Z.of_N (N_of_ascii "v")))))
      "irtualMachine" ∧
  is_ASCII (makePublic (λ _ r, r) "virtualMachine" true) = true ∧
  Go.len (makePublic (λ _ r, r) "virtualMachine" true) = Go.len "virtualMachine".
Proof. apply (makePublic_ASCII (λ _ r, r) "virtualMachine" true). reflexivity. Defined.

(** X20. On an ASCII string the last call of [makePublic] decides: making
    an identifier public or private, and then public or private again,
    is making it so once. *)
Theorem makePublic_twice (To : Z → Z → Z) (s : string) (first last : bool) :
  is_ASCII s = true →
  makePublic To (makePublic To s first) last = makePublic To s last.
Proof.
  destruct s as [|c rest]; [done|]. simpl.
  intros [Hc Hrest]%andb_true_iff. apply Z.ltb_lt in Hc.
  pose proof (byte_bounds c) as Hb.
  destruct (ToUpper_ASCII To (Z.of_N (N_of_ascii c))) as (Hup & Hupup & Hlowup); [lia|].
  destruct (ToLower_ASCII To (Z.of_N (N_of_ascii c))) as (Hlow & Hlowlow & Huplow); [lia|].
  rewrite (makePublic_cons To c rest first) by done.
  rewrite string_of_runes_ASCII by (by destruct first).
  rewrite string_of_runes_of_ASCII by done.
  rewrite !makePublic_cons
    by (try rewrite ascii_byte by (destruct first; lia); destruct first; lia).
  rewrite ascii_byte by (destruct first; lia).
  by destruct first, last; rewrite ?Hupup, ?Hlowup, ?Hlowlow, ?Huplow.
Qed.

Lemma makePublic_twice_witness :
  makePublic (λ _ r, r) (makePublic (λ _ r, r) "hostSystem" true) false
  = makePublic (λ _ r, r) "hostSystem" false.
Proof. apply (makePublic_twice (λ _ r, r) "hostSystem" true false). reflexivity. Defined.

(** X21. [makePublic] does not keep a byte that begins no UTF-8 encoding:
    behind an ASCII first byte it comes back as the three bytes of
    [utf8.RuneError], and the identifier is two bytes longer. *)
Theorem makePublic_invalid_byte (To : Z → Z → Z) (c bad : ascii) (rest : string)
    (public : bool) :
  (Z.of_N (N_of_ascii c) < 0x80)%Z →
  Go.first (Z.of_N (N_of_ascii bad)) = 0xF1%Z →
  is_ASCII rest = true →
  makePublic To (String c (String bad rest)) public =
    String
      (ascii_of_N
         (Z.to_N (if public then ToUpper To (Z.of_N (N_of_ascii c))
                  else ToLower To (Z.of_N (N_of_ascii c)))))
      (String "239" (String "191" (String "189" rest))) ∧
  Go.len (makePublic To (String c (String bad rest)) public)
  = Go.len (String c (String bad rest)) + 2.
Proof.
  intros Hc Hbad Hrest. pose proof (byte_bounds c) as Hb.
  destruct (ToUpper_ASCII To (Z.of_N (N_of_ascii c))) as (Hup & _); [lia|].
  destruct (ToLower_ASCII To (Z.of_N (N_of_ascii c))) as (Hlow & _); [lia|].
  rewrite makePublic_cons by done.
  rewrite (runes_cons bad rest _ (Decode_invalid bad rest Hbad)).
  rewrite string_of_runes_ASCII by (by destruct public).
  rewrite string_of_runes_error, string_of_runes_of_ASCII by done.
  split; [done|]. rewrite !Utf8Facts.len_cons. lia.
Qed.

Lemma makePublic_invalid_byte_witness :
  makePublic (λ _ r, r) (String "n" (String "255" "ame")) true =
    String
      (ascii_of_N
         (Z.to_N (if true then ToUpper (λ _ r, r) (Z.of_N (N_of_ascii "n"))
                  else ToLower (λ _ r, r) (Z.of_N (N_of_ascii "n")))))
      (String "239" (String "191" (String "189" "ame"))) ∧
  Go.len (makePublic (λ _ r, r) (String "n" (String "255" "ame")) true)
  = Go.len (String "n" (String "255" "ame")) + 2.
Proof.
  apply (makePublic_invalid_byte (λ _ r, r) "n" "255" "ame" true); reflexivity.
Defined.

(** ** Trimming a line of a comment *)

Lemma range_from_shift (fuel i : nat) (s : string) :
  Go.range_from fuel i s = (λ jr, (i + jr.1, jr.2)) <$> Go.range_from fuel 0 s.
Proof.
  revert i s. induction fuel as [|fuel IH]; intros i [|c t]; try done.
  rewrite !Utf8Facts.range_from_S. rewrite fmap_cons. simpl.
  f_equal; [f_equal; lia|].
  rewrite (IH (i + _)), (IH (Go.DecodeRuneInString (String c t)).2).
  rewrite <- list_fmap_compose.
  apply list_fmap_ext. intros _ [j r] _. simpl. f_equal. lia.
Qed.

Lemma runes_unfold (c : ascii) (t : string) :
  runes_of_string (String c t) =
    (Go.DecodeRuneInString (String c t)).1
    :: runes_of_string (Go.drop (Go.DecodeRuneInString (String c t)).2 (String c t)).
Proof.
  unfold runes_of_string, Go.range_string.
  rewrite Utf8Facts.len_cons, Utf8Facts.range_from_S. simpl. f_equal.
  pose proof (Utf8Facts.Decode_size (String c t) ltac:(done)) as Hsz.
  rewrite Utf8Facts.len_cons in Hsz.
  rewrite (Utf8Facts.range_from_runes _ _ 0). f_equal.
  apply Utf8Facts.range_from_fuel; rewrite Utf8Facts.len_drop, Utf8Facts.len_cons; lia.
Qed.

Lemma drop_drop (n k : nat) (s : string) :
  Go.drop k (Go.drop n s) = Go.drop (n + k) s.
Proof.
  revert s. induction n as [|n IH]; intros s; [by rewrite GoFacts.drop_zero|].
  destruct s as [|c s]; [by destruct k|]. apply IH.
Qed.

Lemma find_fmap_index (f : Z → bool) (truth : bool) (i : nat) (l : list (nat * Z)) :
  find (λ ir, Bool.eqb (f ir.2) truth) ((λ jr, (i + jr.1, jr.2)) <$> l)
  = (λ jr, (i + jr.1, jr.2)) <$> find (λ ir, Bool.eqb (f ir.2) truth) l.
Proof.
  induction l as [|[j r] l IH]; [done|]. simpl.
  by destruct (Bool.eqb (f r) truth).
Qed.

(** [strings.TrimLeftFunc] rune by rune. *)
Lemma TrimLeftFunc_unfold (c : ascii) (t : string) (f : Z → bool) :
  Go.TrimLeftFunc (String c t) f =
    if f (Go.DecodeRuneInString (String c t)).1
    then Go.TrimLeftFunc (Go.drop (Go.DecodeRuneInString (String c t)).2 (String c t)) f
    else String c t.
Proof.
  pose proof (Utf8Facts.Decode_size (String c t) ltac:(done)) as Hsz.
  rewrite Utf8Facts.len_cons in Hsz.
  unfold Go.TrimLeftFunc, Go.indexFunc, Go.range_string.
  rewrite Utf8Facts.len_cons, Utf8Facts.range_from_S. simpl.
  destruct (f (Go.DecodeRuneInString (String c t)).1); simpl; [|done].
  pose proof (Utf8Facts.len_drop (Go.DecodeRuneInString (String c t)).2 (String c t)) as Hd.
  rewrite Utf8Facts.len_cons in Hd.
  rewrite (Utf8Facts.range_from_fuel (Go.len t)
             (Go.len (Go.drop (Go.DecodeRuneInString (String c t)).2 (String c t))))
    by lia.
  rewrite range_from_shift, find_fmap_index.
  destruct (find _ _) as [[j r]|]; simpl; [|done].
  by rewrite drop_drop.
Qed.

(** What trimming removes is a run of runes for which [f] holds, and what
    it leaves is empty or begins with a rune for which it does not. *)
Lemma TrimLeftFunc_spec (f : Z → bool) (s : string) :
  ∃ removed trimmed,
    s = removed +:+ Go.TrimLeftFunc s f ∧
    runes_of_string s = trimmed ++ runes_of_string (Go.TrimLeftFunc s f) ∧
    forallb f trimmed = true ∧
    (Go.TrimLeftFunc s f = "" ∨
     f (Go.DecodeRuneInString (Go.TrimLeftFunc s f)).1 = false).
Proof.
  remember (Go.len s) as n eqn:Hn. revert s Hn.
  induction (lt_wf n) as [n _ IH]. intros s ->.
  destruct s as [|c t].
  { exists "", []. repeat split. by left. }
  pose proof (Utf8Facts.Decode_size (String c t) ltac:(done)) as Hsz.
  rewrite TrimLeftFunc_unfold.
  destruct (f (Go.DecodeRuneInString (String c t)).1) eqn:Hf.
  - destruct (IH (Go.len (Go.drop (Go.DecodeRuneInString (String c t)).2 (String c t))))
      with (s := Go.drop (Go.DecodeRuneInString (String c t)).2 (String c t))
      as (removed & trimmed & Hs & Hrunes & Hall & Hfirst);
      [rewrite Utf8Facts.len_drop; lia|done|].
    exists (Go.take (Go.DecodeRuneInString (String c t)).2 (String c t) +:+ removed),
           ((Go.DecodeRuneInString (String c t)).1 :: trimmed).
    repeat split.
    + rewrite GoFacts.app_assoc, <- Hs. by rewrite GoFacts.take_drop.
    + by rewrite runes_unfold, Hrunes.
    + simpl. by rewrite Hf, Hall.
    + done.
  - exists "", []. repeat split. right. by rewrite Hf.
Qed.

(** X22. One turn of the loop of [comment] appends a line feed, the
    marker and the line without its leading white space: what it drops of
    the line is a run of runes that are spaces, what it keeps is empty or
    begins with a rune that is no space, and a comment is seen exactly
    when something is kept. *)
Theorem comment_line_trims (output : string) (hasComment : bool) (line : string) :
  ∃ removed kept spaces,
    comment_line (output, hasComment) line
    = (output +:+ String LF "// " +:+ kept,
       hasComment || negb (bool_decide (kept = ""))) ∧
    line = removed +:+ kept ∧
    runes_of_string line = spaces ++ runes_of_string kept ∧
    forallb Go.IsSpace spaces = true ∧
    (kept = "" ∨ Go.IsSpace (Go.DecodeRuneInString kept).1 = false).
Proof.
  destruct (TrimLeftFunc_spec Go.IsSpace line)
    as (removed & spaces & Hline & Hrunes & Hall & Hfirst).
  exists removed, (Go.TrimLeftFunc line Go.IsSpace), spaces.
  repeat split; try done.
  unfold comment_line. f_equal.
  case_bool_decide as Hne; case_bool_decide as He; try done;
    by destruct hasComment.
Qed.
